(** * Rancher Desktop settings core: a shallow embedding

    The development follows [pkg/rancher-desktop/config/settings.ts]:
    the settings tree and its compiled-in defaults, the version
    migration table, the command-line override parser, the settings
    store ([load], [save]) and the deployment-profile reader with its
    schema validation.

    JavaScript values are embedded as a tree type.  Objects keep their
    properties in an association list (own properties in insertion
    order); an array is an object whose kind records its [length], with
    its elements stored under their index keys, so that holes and named
    properties on arrays are representable.  Numbers are the
    integer-valued ones.  Properties inherited from [Object.prototype]
    are not part of the embedding: a key is looked up among own
    properties only.  Exceptions are explicit: fallible code returns a
    [result]. *)

From Stdlib Require Import String Ascii List ZArith NArith Bool Lia.
From Stdlib Require Import DecimalString.
Import ListNotations.

Local Open Scope string_scope.
Local Open Scope list_scope.

(** ** Exceptions and the error monad *)

(** Error codes carried by file-system exceptions ([err.code]). *)
Inductive errno := ENOENT | EACCES | EISDIR | EIO.

(** The messages of the [Error] objects the program constructs itself;
    the interpolated values are kept as fields. *)
Inductive message :=
| UnexpectedArgument (arg : string) (commandLine : list string)
| InvalidAssociatedValue (arg : string)
| NoSuchEntry (arg : string)
| CantOverwrite (arg : string)
| NoValueProvided (arg : string) (commandLine : list string)
| CantEvaluate (fqFieldName finalValue : string)
| ErrorParsingLocked.

Inductive exn :=
| TypeError
| RangeError
| SystemError (code : errno)
| RegistryError
| Error (m : message)
| TypeMismatch (fqFieldName : string).

Inductive result (A : Type) :=
| Ok (a : A)
| Throw (e : exn).
Arguments Ok {A} a.
Arguments Throw {A} e.

Definition bind {A B} (c : result A) (k : A -> result B) : result B :=
  match c with
  | Ok a => k a
  | Throw e => Throw e
  end.

Declare Scope js_scope.
Delimit Scope js_scope with js.
Notation "x <- c ;; k" := (bind c (fun x => k))
  (at level 61, c at next level, right associativity) : js_scope.
Local Open Scope js_scope.

(** ** JavaScript values *)

Module JS.

Inductive objkind :=
| Plain
| Array (len : N).

Unset Elimination Schemes.
Inductive value :=
| VUndef
| VNull
| VBool (b : bool)
| VNum (n : Z)
| VStr (s : string)
| VObj (kind : objkind) (props : list (string * value)).
Set Elimination Schemes.

(** Induction with the hypothesis available for every property value. *)
Section value_ind.
Variable P : value -> Prop.
Hypothesis Hundef : P VUndef.
Hypothesis Hnull : P VNull.
Hypothesis Hbool : forall b, P (VBool b).
Hypothesis Hnum : forall n, P (VNum n).
Hypothesis Hstr : forall s, P (VStr s).
Hypothesis Hobj : forall kind props,
    Forall (fun kv => P (snd kv)) props -> P (VObj kind props).

Fixpoint value_ind (v : value) : P v :=
  match v with
  | VUndef => Hundef
  | VNull => Hnull
  | VBool b => Hbool b
  | VNum n => Hnum n
  | VStr s => Hstr s
  | VObj kind props =>
      Hobj kind props
        ((fix all (l : list (string * value)) : Forall (fun kv => P (snd kv)) l :=
            match l with
            | [] => Forall_nil _
            | kv :: l' => Forall_cons kv (value_ind (snd kv)) (all l')
            end) props)
  end.
End value_ind.

(** [typeof] *)
Inductive jstype := TUndefined | TObject | TBoolean | TNumber | TString.

Definition jstype_eqb (a b : jstype) : bool :=
  match a, b with
  | TUndefined, TUndefined | TObject, TObject | TBoolean, TBoolean
  | TNumber, TNumber | TString, TString => true
  | _, _ => false
  end.

Definition typeof (v : value) : jstype :=
  match v with
  | VUndef => TUndefined
  | VNull => TObject
  | VBool _ => TBoolean
  | VNum _ => TNumber
  | VStr _ => TString
  | VObj _ _ => TObject
  end.

(** Truthiness, as used by [||], [!] and [if]. *)
Definition truthy (v : value) : bool :=
  match v with
  | VUndef | VNull => false
  | VBool b => b
  | VNum n => negb (n =? 0)%Z
  | VStr s => negb (s =? "")
  | VObj _ _ => true
  end.

Definition isArray (v : value) : bool :=
  match v with
  | VObj (Array _) _ => true
  | _ => false
  end.

(** lodash's [isObject]: objects and arrays, not [null]. *)
Definition isObject (v : value) : bool :=
  match v with
  | VObj _ _ => true
  | _ => false
  end.

(** [v !== undefined && v !== null] *)
Definition nullish (v : value) : bool :=
  match v with
  | VUndef | VNull => true
  | _ => false
  end.

(** *** Array index keys *)

Definition digit (c : ascii) : option N :=
  let n := N_of_ascii c in
  if ((48 <=? n) && (n <=? 57))%N then Some (n - 48)%N else None.

Fixpoint digits (s : string) (acc : N) : option N :=
  match s with
  | EmptyString => Some acc
  | String c s' =>
      match digit c with
      | Some d => digits s' (10 * acc + d)%N
      | None => None
      end
  end.

(** A canonical array index: decimal digits without a leading zero,
    below 2^32 - 1. *)
Definition array_index (k : string) : option N :=
  match k with
  | EmptyString => None
  | String c rest =>
      if (Ascii.eqb c "0" && negb (rest =? ""))%bool then None
      else match digits k 0 with
           | Some n => if (n <? 2 ^ 32 - 1)%N then Some n else None
           | None => None
           end
  end.

Definition string_of_N (n : N) : string :=
  NilZero.string_of_uint (N.to_uint n).

Definition string_of_Z (n : Z) : string :=
  NilZero.string_of_int (Z.to_int n).

(** *** Property tables *)

Fixpoint lookup (k : string) (l : list (string * value)) : option value :=
  match l with
  | [] => None
  | (k', v) :: l' => if k =? k' then Some v else lookup k l'
  end.

Definition mem (k : string) (l : list (string * value)) : bool :=
  match lookup k l with
  | Some _ => true
  | None => false
  end.

(** Assignment keeps an existing property in its place and appends a
    new one. *)
Fixpoint assoc_set (k : string) (v : value) (l : list (string * value))
  : list (string * value) :=
  match l with
  | [] => [(k, v)]
  | (k', v') :: l' =>
      if k =? k' then (k, v) :: l' else (k', v') :: assoc_set k v l'
  end.

Definition assoc_remove (k : string) (l : list (string * value))
  : list (string * value) :=
  filter (fun kv => negb (k =? fst kv)) l.

(** *** Property access *)

(** The characters of a string, as its index properties. *)
Fixpoint string_entries (i : N) (s : string) : list (string * value) :=
  match s with
  | EmptyString => []
  | String c s' =>
      (string_of_N i, VStr (String c EmptyString))
        :: string_entries (N.succ i) s'
  end.

(** [o[k]] on a base that is neither [undefined] nor [null]. *)
Definition get (o : value) (k : string) : value :=
  match o with
  | VObj kind props =>
      match kind with
      | Array len =>
          if k =? "length" then VNum (Z.of_N len)
          else match lookup k props with Some v => v | None => VUndef end
      | Plain => match lookup k props with Some v => v | None => VUndef end
      end
  | VStr s =>
      if k =? "length" then VNum (Z.of_nat (String.length s))
      else match lookup k (string_entries 0 s) with
           | Some v => v
           | None => VUndef
           end
  | _ => VUndef
  end.

(** [o[k]]: reading a property of [undefined] or [null] is a TypeError. *)
Definition getprop (o : value) (k : string) : result value :=
  if nullish o then Throw TypeError else Ok (get o k).

(** Own-property test on an object. *)
Definition own (o : value) (k : string) : bool :=
  match o with
  | VObj (Array _) props => (k =? "length") || mem k props
  | VObj Plain props => mem k props
  | _ => false
  end.

(** [k in o]: a TypeError unless [o] is an object. *)
Definition has_in (k : string) (o : value) : result bool :=
  match o with
  | VObj _ _ => Ok (own o k)
  | _ => Throw TypeError
  end.

(** Index properties at or beyond a new array length are dropped. *)
Definition truncate (n : N) (l : list (string * value))
  : list (string * value) :=
  filter (fun kv => match array_index (fst kv) with
                    | Some i => (i <? n)%N
                    | None => true
                    end) l.

(** [o[k] = v] in strict mode.  Assigning to a property of a primitive
    is a TypeError; an array grows when an index at or beyond its length
    is assigned; assigning [length] truncates or extends the array and
    is a RangeError for a value that is not a valid length. *)
Definition setprop (o : value) (k : string) (v : value) : result value :=
  match o with
  | VObj Plain props => Ok (VObj Plain (assoc_set k v props))
  | VObj (Array len) props =>
      if k =? "length" then
        match v with
        | VNum n =>
            if ((0 <=? n) && (n <? 2 ^ 32))%Z
            then Ok (VObj (Array (Z.to_N n)) (truncate (Z.to_N n) props))
            else Throw RangeError
        | _ => Throw RangeError
        end
      else
        match array_index k with
        | Some i => Ok (VObj (Array (N.max len (N.succ i))) (assoc_set k v props))
        | None => Ok (VObj (Array len) (assoc_set k v props))
        end
  | _ => Throw TypeError
  end.

(** [delete o[k]] in strict mode. *)
Definition delprop (o : value) (k : string) : result value :=
  match o with
  | VObj kind props =>
      if isArray o && (k =? "length") then Throw TypeError
      else Ok (VObj kind (assoc_remove k props))
  | VUndef | VNull => Throw TypeError
  | VStr s =>
      if (k =? "length") || mem k (string_entries 0 s) then Throw TypeError
      else Ok o
  | _ => Ok o
  end.

(** [Object.keys(o)].  The enumeration order of integer-like keys is not
    normalised; no code below depends on the order. *)
Definition Object_keys (o : value) : result (list string) :=
  match o with
  | VObj _ props => Ok (map fst props)
  | VStr s => Ok (map fst (string_entries 0 s))
  | VUndef | VNull => Throw TypeError
  | _ => Ok []
  end.

(** [a || b] *)
Definition js_or (a b : value) : value := if truthy a then a else b.

(** [a ?? b] *)
Definition js_coalesce (a b : value) : value := if nullish a then b else a.

(** Strict equality to a string constant. *)
Definition is_string (v : value) (s : string) : bool :=
  match v with
  | VStr s' => s' =? s
  | _ => false
  end.

Definition obj (props : list (string * value)) : value := VObj Plain props.
Definition arr0 : value := VObj (Array 0) [].

End JS.
Import JS.

(** ** Library functions the program calls *)

Module Lodash.

(** lodash's [assignMergeValue]/[baseAssignValue]: plain assignment on
    the destination object of a merge. *)
Definition assignValue (object : value) (key : string) (v : value) : value :=
  match setprop object key v with
  | Ok object' => object'
  | Throw _ => object
  end.

(** The empty container a merge starts from when the destination has no
    value for an object-valued source property: [[]] for an array
    source, [{}] otherwise. *)
Definition emptyLike (srcValue : value) : value :=
  if isArray srcValue then arr0 else obj [].

(** One source property of [baseMerge] under [customDefaultsMerge].
    [merge] is the recursive merge of the source value into a
    destination value. *)
Definition mergeEntry (merge : value -> value) (object : value)
  (key : string) (srcValue : value) : value :=
  let objValue := get object key in
  if isObject srcValue then
    if isObject objValue then assignValue object key (merge objValue)
    else
      match objValue with
      | VUndef => assignValue object key (merge (emptyLike srcValue))
      | _ => object
      end
  else
    match objValue with
    | VUndef =>
        match srcValue with
        | VUndef => if own object key then object
                    else assignValue object key VUndef
        | _ => assignValue object key srcValue
        end
    | _ => object
    end.

(** [baseMerge(object, source)] with the [defaultsDeep] customizer: a
    property of [source] is copied when [object] has no value for it,
    merged recursively when both values are objects, and left alone
    otherwise.  [source] is a tree of JSON data (its arrays are dense
    and carry no named properties). *)
Fixpoint baseMerge (source : value) (object : value) {struct source} : value :=
  match source with
  | VObj _ sprops =>
      (fix each (l : list (string * value)) (object : value) : value :=
         match l with
         | [] => object
         | (key, srcValue) :: l' =>
             each l' (mergeEntry (baseMerge srcValue) object key srcValue)
         end) sprops object
  | _ => object
  end.

(** [_.defaultsDeep(object, source)] *)
Definition defaultsDeep (object source : value) : value :=
  baseMerge source object.

(** [_.isEqual]: deep comparison, insensitive to property order. *)
Fixpoint isEqual (a b : value) {struct a} : bool :=
  match a, b with
  | VUndef, VUndef => true
  | VNull, VNull => true
  | VBool x, VBool y => Bool.eqb x y
  | VNum x, VNum y => (x =? y)%Z
  | VStr x, VStr y => x =? y
  | VObj ka pa, VObj kb pb =>
      match ka, kb with
      | Plain, Plain => true
      | Array la, Array lb => (la =? lb)%N
      | _, _ => false
      end
      && (List.length pa =? List.length pb)%nat
      && (fix all (l : list (string * value)) : bool :=
            match l with
            | [] => true
            | (k, va) :: l' =>
                match lookup k pb with
                | Some vb => isEqual va vb && all l'
                | None => false
                end
            end) pa
  | _, _ => false
  end.

End Lodash.
Import Lodash.

(** Modelled from the spec: [@pkg/utils/clone] is not among the sources;
    it is the deep copy the spec's SettingsStore relies on.  On a tree
    of values a deep copy is the value itself. *)
Definition clone (v : value) : value := v.

(** ** What the host provides

    The JSON and plist decoders, the encoder, the conversions of
    non-numeric operands that the language applies in [<] and in
    property keys, and the one imported constant of the defaults. *)
Class Host := {
  (** [JSON.parse]; [None] is a SyntaxError. *)
  JSON_parse : string -> option value;
  (** [plist.parse]; [None] is a parse error. *)
  plist_parse : string -> option value;
  (** [JSON.stringify] *)
  JSON_stringify : value -> string;
  (** ToNumber on a string; [None] when the result is NaN or not an
      integer (no table entry is selected in either case). *)
  StringToNumber : string -> option Z;
  (** ToString on an object or array operand. *)
  ObjectToString : value -> string;
  (** [PathManagementStrategy.NotSet], a member of a string enum. *)
  PathManagementStrategy_NotSet : string
}.

Section Program.
Context {host : Host}.

(** ToNumber, as applied by the relational operators. *)
Definition ToNumber (v : value) : option Z :=
  match v with
  | VUndef => None
  | VNull => Some 0%Z
  | VBool b => Some (if b then 1 else 0)%Z
  | VNum n => Some n
  | VStr s => StringToNumber s
  | VObj _ _ => StringToNumber (ObjectToString v)
  end.

(** ToPropertyKey, as applied by [table[v]]. *)
Definition ToPropertyKey (v : value) : string :=
  match v with
  | VUndef => "undefined"
  | VNull => "null"
  | VBool b => if b then "true" else "false"
  | VNum n => string_of_Z n
  | VStr s => s
  | VObj _ _ => ObjectToString v
  end.

(** ** Settings *)

Definition CURRENT_SETTINGS_VERSION : Z := 5.

Inductive ContainerEngine := NONE | CONTAINERD | MOBY.

Definition ContainerEngine_string (e : ContainerEngine) : string :=
  match e with
  | NONE => ""
  | CONTAINERD => "containerd"
  | MOBY => "moby"
  end.

(** [Object.values(ContainerEngine).map(String)] *)
Definition ContainerEngine_values : list string :=
  map ContainerEngine_string [NONE; CONTAINERD; MOBY].

Definition defaultSettings : value :=
  obj [
    ("version", VNum CURRENT_SETTINGS_VERSION);
    ("application", obj [
      ("adminAccess", VBool true);
      ("debug", VBool false);
      ("pathManagementStrategy", VStr PathManagementStrategy_NotSet);
      ("telemetry", obj [("enabled", VBool true)]);
      ("updater", obj [("enabled", VBool true)])
    ]);
    ("containerEngine", obj [
      ("imageAllowList", obj [
        ("enabled", VBool false);
        ("locked", VBool false);
        ("patterns", arr0)
      ]);
      ("name", VStr (ContainerEngine_string CONTAINERD))
    ]);
    ("virtualMachine", obj [
      ("memoryInGB", VNum 2);
      ("numberCPUs", VNum 2);
      ("hostResolver", VBool true)
    ]);
    ("WSL", obj [("integrations", obj [])]);
    ("kubernetes", obj [
      ("version", VStr "");
      ("port", VNum 6443);
      ("enabled", VBool true);
      ("options", obj [("traefik", VBool true); ("flannel", VBool true)])
    ]);
    ("portForwarding", obj [("includeKubernetesServices", VBool false)]);
    ("images", obj [
      ("showAll", VBool true);
      ("namespace", VStr "k8s.io")
    ]);
    ("diagnostics", obj [
      ("showMuted", VBool false);
      ("mutedChecks", obj [])
    ]);
    ("autoStart", VBool false);
    ("startInBackground", VBool false);
    ("hideNotificationIcon", VBool false);
    ("window", obj [("quitOnClose", VBool false)]);
    ("experimental", obj [
      ("virtualMachine", obj [("socketVMNet", VBool false)])
    ])
  ].

(** *** Mutation of a nested object

    An object reached through [parent[key]] is mutated in place by the
    source; on the tree its new state takes the place of the old one
    under the same key.  Primitives are not mutated. *)
Definition store (parent : value) (key : string) (child : value) : value :=
  match parent with
  | VObj kind props =>
      if isObject child then VObj kind (assoc_set key child props) else parent
  | _ => parent
  end.

(** [s.a.b] *)
Definition get2 (s : value) (a b : string) : result value :=
  x <- getprop s a;; getprop x b.

(** [s.a.b.c] *)
Definition get3 (s : value) (a b c : string) : result value :=
  x <- get2 s a b;; getprop x c.

(** [delete s.a.b] *)
Definition delete2 (s : value) (a b : string) : result value :=
  x <- getprop s a;;
  x' <- delprop x b;;
  Ok (store s a x').

(** *** The migration table *)

(** [updateTable[1]] *)
Definition update1 (settings : value) : result value :=
  kubernetes <- getprop settings "kubernetes";;
  present <- has_in "rancherMode" kubernetes;;
  if present : bool then delete2 settings "kubernetes" "rancherMode"
  else Ok settings.

(** [updateTable[2]] and [updateTable[3]] *)
Definition update_noop (settings : value) : result value := Ok settings.

(** [updateTable[4]] *)
Definition update4 (settings : value) : result value :=
  suppressSudo <- get2 settings "kubernetes" "suppressSudo";;
  debug <- getprop settings "debug";;
  pathManagementStrategy <- getprop settings "pathManagementStrategy";;
  telemetry <- getprop settings "telemetry";;
  updater <- getprop settings "updater";;
  settings <- setprop settings "application" (obj [
      ("adminAccess", VBool (negb (truthy suppressSudo)));
      ("debug", debug);
      ("pathManagementStrategy", pathManagementStrategy);
      ("telemetry", obj [("enabled", telemetry)]);
      ("updater", obj [("enabled", updater)])
    ]);;
  hostResolver <- get2 settings "kubernetes" "hostResolver";;
  memoryInGB <- get2 settings "kubernetes" "memoryInGB";;
  numberCPUs <- get2 settings "kubernetes" "numberCPUs";;
  settings <- setprop settings "virtualMachine" (obj [
      ("hostResolver", hostResolver);
      ("memoryInGB", memoryInGB);
      ("numberCPUs", numberCPUs)
    ]);;
  socketVMNet <- get3 settings "kubernetes" "experimental" "socketVMNet";;
  settings <- setprop settings "experimental"
      (obj [("virtualMachine", obj [("socketVMNet", socketVMNet)])]);;
  WSLIntegrations <- get2 settings "kubernetes" "WSLIntegrations";;
  settings <- setprop settings "WSL" (obj [("integrations", WSLIntegrations)]);;
  containerEngine <- getprop settings "containerEngine";;
  name <- get2 settings "kubernetes" "containerEngine";;
  containerEngine <- setprop containerEngine "name" name;;
  let settings := store settings "containerEngine" containerEngine in
  settings <- delete2 settings "kubernetes" "containerEngine";;
  settings <- delete2 settings "kubernetes" "experimental";;
  settings <- delete2 settings "kubernetes" "hostResolver";;
  settings <- delete2 settings "kubernetes" "checkForExistingKimBuilder";;
  settings <- delete2 settings "kubernetes" "memoryInGB";;
  settings <- delete2 settings "kubernetes" "numberCPUs";;
  settings <- delete2 settings "kubernetes" "suppressSudo";;
  settings <- delete2 settings "kubernetes" "WSLIntegrations";;
  settings <- delprop settings "debug";;
  settings <- delprop settings "pathManagementStrategy";;
  settings <- delprop settings "telemetry";;
  delprop settings "updater".

Definition updateTable : list (string * (value -> result value)) :=
  [("1", update1); ("2", update_noop); ("3", update_noop); ("4", update4)].

Fixpoint table_lookup (k : string) (t : list (string * (value -> result value)))
  : option (value -> result value) :=
  match t with
  | [] => None
  | (k', f) :: t' => if k =? k' then Some f else table_lookup k t'
  end.

(** The body of the migration loop, run [count] times:
    [if (updateTable[loadedVersion]) updateTable[loadedVersion](settings)]
    followed by [loadedVersion++]. *)
Fixpoint updateLoop (count : nat) (loadedVersion : value) (settings : value)
  : result value :=
  match count with
  | O => Ok settings
  | S count' =>
      settings <- match table_lookup (ToPropertyKey loadedVersion) updateTable with
                  | Some step => step settings
                  | None => Ok settings
                  end;;
      let next := match ToNumber loadedVersion with
                  | Some n => VNum (n + 1)
                  | None => VUndef
                  end in
      updateLoop count' next settings
  end.

(** [updateSettings]: the loop [for (; loadedVersion < CURRENT; loadedVersion++)]
    runs [CURRENT - loadedVersion] times.  The branch for a settings file
    from a newer version only logs. *)
Definition updateSettings (settings : value) : result value :=
  keys <- Object_keys settings;;
  if (List.length keys =? 0)%nat then Ok defaultSettings
  else
    version <- getprop settings "version";;
    let loadedVersion := js_or version (VNum 0) in
    settings <-
      match ToNumber loadedVersion with
      | Some n =>
          if (n <? CURRENT_SETTINGS_VERSION)%Z
          then updateLoop (Z.to_nat (CURRENT_SETTINGS_VERSION - n))
                 loadedVersion settings
          else Ok settings
      | None => Ok settings
      end;;
    settings <- setprop settings "version" (VNum CURRENT_SETTINGS_VERSION);;
    Ok (defaultsDeep settings defaultSettings).

(** ** The environment and the process state *)

Inductive Platform := win32 | linux | darwin | other_platform.

(** What [fs.readFileSync] finds at a path. *)
Inductive fs_entry :=
| Fails (code : errno)
| File (data : string).

Definition FileSystem := string -> fs_entry.

(** What [nativeReg.getValue] does for a value name under a key. *)
Inductive reg_read :=
| RegNull
| RegThrows
| RegValue (v : value).

(** An open registry key: [getValue(key, regPath, name)], with [regPath]
    kept as its list of components. *)
Definition HKEY := list string -> string -> reg_read.

Inductive Hive := HKLM | HKCU.

Record Env := {
  platform : Platform;
  totalmem : Z;
  APPIMAGE : bool;
  productionVersion : string;
  paths_config : string;
  paths_deploymentProfileSystem : string;
  paths_deploymentProfileUser : string;
  (** [nativeReg.openKey]; [None] when the key does not exist. *)
  openKey : Hive -> list string -> option HKEY
}.

(** The module-level variables [_isFirstRun] and [settings], the
    settings directory as the file system shows it, the transient
    settings, and a record of the calls of [save] and of the error
    boxes shown. *)
Record State := {
  files : FileSystem;
  writeFault : option errno;
  _isFirstRun : bool;
  settings : option value;
  noModalDialogs : bool;
  saveCalls : list value;
  errorBoxes : list errno
}.

Variable env : Env.

(** [path.join] on two components. *)
Definition join (a b : string) : string := (a ++ "/" ++ b)%string.

Definition settings_json : string := join (paths_config env) "settings.json".

Definition readFileSync (fs : FileSystem) (path : string) : result string :=
  match fs path with
  | File data => Ok data
  | Fails code => Throw (SystemError code)
  end.

(** [save]: a failure of [mkdirSync] or [writeFileSync] is caught and
    shown in an error box; [save] itself never throws. *)
Definition save (cfg : value) (st : State) : State :=
  match writeFault st with
  | None =>
      {| files := fun p => if p =? settings_json
                           then File (JSON_stringify cfg) else files st p;
         writeFault := writeFault st;
         _isFirstRun := _isFirstRun st;
         settings := settings st;
         noModalDialogs := noModalDialogs st;
         saveCalls := cfg :: saveCalls st;
         errorBoxes := errorBoxes st |}
  | Some code =>
      {| files := files st;
         writeFault := writeFault st;
         _isFirstRun := _isFirstRun st;
         settings := settings st;
         noModalDialogs := noModalDialogs st;
         saveCalls := cfg :: saveCalls st;
         errorBoxes := code :: errorBoxes st |}
  end.

Definition set_isFirstRun (b : bool) (st : State) : State :=
  {| files := files st;
     writeFault := writeFault st;
     _isFirstRun := b;
     settings := settings st;
     noModalDialogs := noModalDialogs st;
     saveCalls := saveCalls st;
     errorBoxes := errorBoxes st |}.

Definition set_settings (s : value) (st : State) : State :=
  {| files := files st;
     writeFault := writeFault st;
     _isFirstRun := _isFirstRun st;
     settings := Some s;
     noModalDialogs := noModalDialogs st;
     saveCalls := saveCalls st;
     errorBoxes := errorBoxes st |}.

(** [TransientSettings.update({ noModalDialogs })] *)
Definition set_noModalDialogs (b : bool) (st : State) : State :=
  {| files := files st;
     writeFault := writeFault st;
     _isFirstRun := _isFirstRun st;
     settings := settings st;
     noModalDialogs := b;
     saveCalls := saveCalls st;
     errorBoxes := errorBoxes st |}.

(** *** loadFromDisk *)

Definition loadFromDisk (st : State) : result (value * State) :=
  rawdata <- readFileSync (files st) settings_json;;
  match JSON_parse rawdata with
  | None => Ok (defaultSettings, save defaultSettings st)
  | Some parsed =>
      cfg <- updateSettings (clone parsed);;
      name <- get2 cfg "containerEngine" "name";;
      if negb (existsb (is_string name) ContainerEngine_values) then
        containerEngine <- getprop cfg "containerEngine";;
        containerEngine <- setprop containerEngine "name"
                             (VStr (ContainerEngine_string CONTAINERD));;
        let cfg := store cfg "containerEngine" containerEngine in
        Ok (cfg, save cfg st)
      else if negb (isEqual cfg parsed) then Ok (cfg, save cfg st)
      else Ok (cfg, st)
  end.

(** *** load *)

(** [s.a.b = v] on a tree in which [s.a] is an object. *)
Definition set2 (s : value) (a b : string) (v : value) : value :=
  store s a (assignValue (get s a) b v).

(** [s.a.b.c = v] *)
Definition set3 (s : value) (a b c : string) (v : value) : value :=
  store s a (set2 (get s a) b c v).

Definition includes (needle s : string) : bool :=
  match String.index 0 needle s with
  | Some _ => true
  | None => false
  end.

(** [Math.min(6, Math.round(totalmem / 2 ** 30 / 4.0))] *)
Definition initialMemoryInGB : Z :=
  Z.min 6 ((totalmem env + 2 ^ 31) / 2 ^ 32).

Definition load (st : State) : value * State :=
  match settings st with
  | Some s => (s, st)
  | None =>
      match loadFromDisk st with
      | Ok (cfg, st') => (cfg, set_settings cfg st')
      | Throw err =>
          let s := clone defaultSettings in
          let enoent := match err with
                        | SystemError ENOENT => true
                        | _ => false
                        end in
          let st := if enoent then set_isFirstRun true st else st in
          let s :=
            if enoent then
              match platform env with
              | darwin | linux =>
                  set2 s "virtualMachine" "memoryInGB" (VNum initialMemoryInGB)
              | _ => s
              end
            else s in
          let s := match platform env with
                   | linux =>
                       if negb (APPIMAGE env)
                       then set3 s "application" "updater" "enabled" (VBool false)
                       else s
                   | _ => s
                   end in
          let appVersion := productionVersion env in
          let s := if includes "-" appVersion || includes "?" appVersion
                   then set3 s "application" "updater" "enabled" (VBool false)
                   else s in
          (s, save s (set_settings s st))
      end
  end.

Definition firstRunDialogNeeded (st : State) : bool := _isFirstRun st.

(** ** The command-line override parser *)

(** [s.split(sep)] for a one-character separator. *)
Fixpoint str_split (sep : ascii) (s : string) : list string :=
  match s with
  | EmptyString => [EmptyString]
  | String c s' =>
      if Ascii.eqb c sep then EmptyString :: str_split sep s'
      else match str_split sep s' with
           | [] => [String c EmptyString]
           | part :: parts => String c part :: parts
           end
  end.

(** The object a walk through the settings has reached: either the
    object found in [cfg] along [path], which an assignment through the
    reference updates in [cfg], or a value that is no part of [cfg] (a
    primitive read out of it, or the fresh [{}] substituted for a falsy
    one). *)
Inductive node :=
| Inside (path : list string)
| Outside (v : value).

Fixpoint follow (o : value) (path : list string) : value :=
  match path with
  | [] => o
  | k :: rest => follow (get o k) rest
  end.

Definition deref (cfg : value) (n : node) : value :=
  match n with
  | Inside path => follow cfg path
  | Outside v => v
  end.

(** [currentConfig = currentConfig[field] || {}] *)
Definition descend (cfg : value) (currentConfig : node) (field : string)
  : result node :=
  v <- getprop (deref cfg currentConfig) field;;
  if truthy v then
    match currentConfig with
    | Inside path => if isObject v then Ok (Inside (path ++ [field]))
                     else Ok (Outside v)
    | Outside _ => Ok (Outside v)
    end
  else Ok (Outside (obj [])).

Fixpoint walk (cfg : value) (currentConfig : node) (optionParts : list string)
  : result node :=
  match optionParts with
  | [] => Ok currentConfig
  | field :: rest =>
      next <- descend cfg currentConfig field;;
      walk cfg next rest
  end.

Definition getUpdatableNode (cfg : value) (fqFieldAccessor : string)
  : result (option (node * string)) :=
  let parts := str_split "." fqFieldAccessor in
  let finalOptionPart := last parts "" in
  let optionParts := removelast parts in
  currentConfig <- walk cfg (Inside []) optionParts;;
  present <- has_in finalOptionPart (deref cfg currentConfig);;
  Ok (if present : bool then Some (currentConfig, finalOptionPart) else None).

(** The update of the object at [path] in [o]. *)
Fixpoint update_at (o : value) (path : list string)
  (f : value -> result value) : result value :=
  match path with
  | [] => f o
  | k :: rest =>
      child <- update_at (get o k) rest f;;
      Ok (store o k child)
  end.

(** [lhs[finalFieldName] = finalValue] *)
Definition assign_through (cfg : value) (lhs : node) (finalFieldName : string)
  (finalValue : value) : result value :=
  match lhs with
  | Inside path => update_at cfg path (fun o => setprop o finalFieldName finalValue)
  | Outside v => _ <- setprop v finalFieldName finalValue;; Ok cfg
  end.

(** The loop of [updateFromCommandLine] over the arguments from index
    [i] on, [args] being [commandLineArgs.slice(i)].  The result carries
    the final value of [processingExternalArguments]. *)
Fixpoint processArguments (commandLineArgs args : list string)
  (processingExternalArguments : bool) (cfg : value) (st : State)
  : result (value * State * bool) :=
  match args with
  | [] => Ok (cfg, st, processingExternalArguments)
  | arg :: rest =>
      if negb (String.prefix "--" arg) then
        if processingExternalArguments
        then processArguments commandLineArgs rest true cfg st
        else Throw (Error (UnexpectedArgument arg commandLineArgs))
      else
        let equalPosition := String.index 0 "=" arg in
        let fqFieldName :=
          match equalPosition with
          | None => String.substring 2 (String.length arg - 2) arg
          | Some p => String.substring 2 (p - 2) arg
          end in
        let value :=
          match equalPosition with
          | None => ""
          | Some p => String.substring (p + 1) (String.length arg - (p + 1)) arg
          end in
        if fqFieldName =? "no-modal-dialogs" then
          if (value =? "") || (value =? "true")
          then processArguments commandLineArgs rest false cfg
                 (set_noModalDialogs true st)
          else if value =? "false"
          then processArguments commandLineArgs rest false cfg
                 (set_noModalDialogs false st)
          else Throw (Error (InvalidAssociatedValue arg))
        else
          lhsInfo <- getUpdatableNode cfg fqFieldName;;
          match lhsInfo with
          | None =>
              if processingExternalArguments
              then processArguments commandLineArgs rest true cfg st
              else Throw (Error (NoSuchEntry arg))
          | Some (lhs, finalFieldName) =>
              let currentValue := get (deref cfg lhs) finalFieldName in
              let currentValueType := typeof currentValue in
              let finish (finalValue : string) (rest : list string)
                    (continue : JS.value -> result (JS.value * State * bool)) :=
                finalValue <-
                  match currentValueType with
                  | TBoolean | TNumber =>
                      match JSON_parse finalValue with
                      | None => Throw (Error (CantEvaluate fqFieldName finalValue))
                      | Some parsed =>
                          if jstype_eqb (typeof parsed) currentValueType
                          then Ok parsed
                          else Throw (TypeMismatch fqFieldName)
                      end
                  | _ => Ok (VStr finalValue)
                  end;;
                cfg <- assign_through cfg lhs finalFieldName finalValue;;
                continue cfg in
              match currentValueType with
              | TObject => Throw (Error (CantOverwrite arg))
              | TBoolean =>
                  finish (match equalPosition with
                          | None => "true"
                          | Some _ => value
                          end) rest
                    (fun cfg => processArguments commandLineArgs rest false cfg st)
              | _ =>
                  match equalPosition with
                  | None =>
                      match rest with
                      | [] => Throw (Error (NoValueProvided arg commandLineArgs))
                      | next :: rest' =>
                          finish next rest'
                            (fun cfg =>
                               processArguments commandLineArgs rest' false cfg st)
                      end
                  | Some _ =>
                      finish value rest
                        (fun cfg => processArguments commandLineArgs rest false cfg st)
                  end
              end
          end
  end.

Definition updateFromCommandLine (cfg : value) (commandLineArgs : list string)
  (st : State) : result (value * State) :=
  done <- processArguments commandLineArgs commandLineArgs true cfg st;;
  let '(cfg, st, _) := done in
  if (0 <? List.length commandLineArgs)%nat
  then Ok (cfg, set_isFirstRun false (save cfg st))
  else Ok (cfg, st).

(** ** Deployment profiles *)

Record Profiles := {
  defaults : value;
  locked : value
}.

Definition defined (v : value) : bool :=
  negb (jstype_eqb (typeof v) TUndefined).

(** [v !== b] for a boolean [b]. *)
Definition strict_ne_bool (v : value) (b : bool) : bool :=
  match v with
  | VBool b' => negb (Bool.eqb b' b)
  | _ => true
  end.

(** The body of the [forEach] of [validateDeploymentProfile] for one
    key; [member] is [profile[key]] and [recurse] is the recursive call
    on it. *)
Definition validateKey (recurse : value -> result value)
  (schema profile : value) (key : string) (member : value) : result value :=
  present <- has_in key schema;;
  if present : bool then
    if jstype_eqb (typeof member) (typeof (get schema key)) then
      if jstype_eqb (typeof member) TObject then
        if isArray (VBool (strict_ne_bool member (isArray (get schema key))))
        then delprop profile key
        else if negb (isArray member) then
          member' <- recurse (get schema key);;
          Ok (store profile key member')
        else Ok profile
      else Ok profile
    else delprop profile key
  else delprop profile key.

(** [validateDeploymentProfile].  A key of an object is bound once, so
    the [forEach] over [Object.keys(profile)] visits each property with
    its value. *)
Fixpoint validateDeploymentProfile (profile schema : value) {struct profile}
  : result value :=
  match profile with
  | VUndef => Ok VUndef
  | VNull => Throw TypeError
  | VObj _ props =>
      (fix each (entries : list (string * value)) (profile : value)
         : result value :=
         match entries with
         | [] => Ok profile
         | (key, member) :: rest =>
             profile <- validateKey (validateDeploymentProfile member)
                          schema profile key member;;
             each rest profile
         end) props profile
  | VStr s =>
      fold_left (fun acc kv =>
                   profile <- acc;;
                   validateKey (fun _ => Ok (snd kv)) schema profile
                     (fst kv) (snd kv))
        (string_entries 0 s) (Ok profile)
  | _ => Ok profile
  end.

(** *** The registry reader (Windows) *)

Definition getValue (regKey : HKEY) (regPath : list string) (name : string)
  : result value :=
  match regKey regPath name with
  | RegNull => Ok VNull
  | RegThrows => Throw RegistryError
  | RegValue v => Ok v
  end.

(** What [readRegistryUsingSchema] does with the value read for one
    schema entry. *)
Definition registryEntry (schemaKey : string) (schemaVal regValue : value)
  (newObject : value) : value :=
  if negb (nullish regValue) then
    let newObject := js_coalesce newObject (obj []) in
    let regValue :=
      if jstype_eqb (typeof schemaVal) TBoolean then
        match regValue with
        | VNum n => VBool (negb (n =? 0)%Z)
        | _ => VBool false
        end
      else regValue in
    assignValue newObject schemaKey regValue
  else newObject.

(** [readRegistryUsingSchema]; its first parameter is not used by the
    source and is left out. *)
Fixpoint readRegistryUsingSchema (schemaObj : value) (regKey : HKEY)
  (regPath : list string) {struct schemaObj} : result value :=
  match schemaObj with
  | VObj _ entries =>
      (fix each (l : list (string * value)) (newObject : value) : result value :=
         match l with
         | [] => Ok newObject
         | (schemaKey, schemaVal) :: l' =>
             regValue <-
               (if jstype_eqb (typeof schemaVal) TObject && negb (isArray schemaVal)
                then readRegistryUsingSchema schemaVal regKey (regPath ++ [schemaKey])
                else getValue regKey regPath schemaKey);;
             each l' (registryEntry schemaKey schemaVal regValue newObject)
         end) entries VUndef
  | VUndef | VNull => Throw TypeError
  | VStr s =>
      fold_left (fun acc kv =>
                   newObject <- acc;;
                   regValue <- getValue regKey regPath (fst kv);;
                   Ok (registryEntry (fst kv) (snd kv) regValue newObject))
        (string_entries 0 s) (Ok VUndef)
  | _ => Ok VUndef
  end.

Definition REGISTRY_PATH_PROFILE : list string :=
  ["SOFTWARE"; "Rancher Desktop"; "Profile"].

(** One iteration of the loop over the registry hives: an exception
    while reading is caught and logged, leaving what was assigned before
    it. *)
Definition readHive (key : Hive) (profiles : Profiles) : Profiles :=
  match openKey env key REGISTRY_PATH_PROFILE with
  | Some registryKey =>
      match readRegistryUsingSchema defaultSettings registryKey ["Defaults"] with
      | Ok d =>
          match readRegistryUsingSchema defaultSettings registryKey ["Locked"] with
          | Ok l => {| defaults := d; locked := l |}
          | Throw _ => {| defaults := d; locked := locked profiles |}
          end
      | Throw _ => profiles
      end
  | None => profiles
  end.

Fixpoint scanHives (keys : list Hive) (profiles : Profiles) : Profiles :=
  match keys with
  | [] => profiles
  | key :: rest =>
      let profiles := readHive key profiles in
      if defined (defaults profiles) || defined (locked profiles)
      then profiles
      else scanHives rest profiles
  end.

(** *** The file reader (Linux, macOS) *)

Definition readProfileFiles (fs : FileSystem)
  (rootPath defaultsPath lockedPath : string)
  (parse : string -> option value) : result Profiles :=
  let defaults :=
    match readFileSync fs (join rootPath defaultsPath) with
    | Ok defaultsData =>
        match parse defaultsData with
        | Some v => v
        | None => VUndef
        end
    | Throw _ => VUndef
    end in
  locked <-
    match readFileSync fs (join rootPath lockedPath) with
    | Ok lockedData =>
        match parse lockedData with
        | Some v => Ok v
        | None => Throw (Error ErrorParsingLocked)
        end
    | Throw (SystemError ENOENT) => Ok VUndef
    | Throw _ => Throw (Error ErrorParsingLocked)
    end;;
  Ok {| defaults := defaults; locked := locked |}.

(** The loop over the profile directories.  The [profiles] it declares
    is local to the loop body: nothing is assigned to the [profiles] of
    [readDeploymentProfiles], so the loop yields no value. *)
Fixpoint scanRoots (fs : FileSystem) (roots : list string)
  (defaultsPath lockedPath : string) (parse : string -> option value)
  : result unit :=
  match roots with
  | [] => Ok tt
  | rootPath :: rest =>
      profiles <- readProfileFiles fs rootPath defaultsPath lockedPath parse;;
      if defined (defaults profiles) || defined (locked profiles)
      then Ok tt
      else scanRoots fs rest defaultsPath lockedPath parse
  end.

Definition readDeploymentProfiles (fs : FileSystem) : result Profiles :=
  let profiles := {| defaults := VUndef; locked := VUndef |} in
  profiles <-
    match platform env with
    | win32 => Ok (scanHives [HKLM; HKCU] profiles)
    | linux =>
        _ <- scanRoots fs
               [paths_deploymentProfileSystem env; paths_deploymentProfileUser env]
               "defaults.json" "locked.json" JSON_parse;;
        Ok profiles
    | darwin =>
        _ <- scanRoots fs
               [paths_deploymentProfileSystem env; paths_deploymentProfileUser env]
               "io.rancherdesktop.profile.defaults.plist"
               "io.rancherdesktop.profile.locked.plist" plist_parse;;
        Ok profiles
    | other_platform => Ok profiles
    end;;
  d <- validateDeploymentProfile (defaults profiles) defaultSettings;;
  l <- validateDeploymentProfile (locked profiles) defaultSettings;;
  Ok {| defaults := js_coalesce d (obj []); locked := js_coalesce l (obj []) |}.

End Program.

(** ** A host for concrete runs

    [JSON.parse] is given by the documents it is told about and by the
    JSON literals [true], [false], [null] and the integers; every other
    text is a syntax error.  It is used where a run needs a concrete
    host. *)

Definition parse_integer (s : string) : option Z :=
  match s with
  | String "-" rest =>
      match array_index rest with
      | Some n => Some (- Z.of_N n)%Z
      | None => None
      end
  | _ =>
      match array_index s with
      | Some n => Some (Z.of_N n)
      | None => None
      end
  end.

Definition parse_literal (s : string) : option value :=
  if s =? "true" then Some (VBool true)
  else if s =? "false" then Some (VBool false)
  else if s =? "null" then Some VNull
  else match parse_integer s with
       | Some n => Some (VNum n)
       | None => None
       end.

Fixpoint parse_document (documents : list (string * value)) (s : string)
  : option value :=
  match documents with
  | [] => parse_literal s
  | (text, v) :: rest => if s =? text then Some v else parse_document rest s
  end.

Definition quote : string := String (Ascii.ascii_of_nat 34) EmptyString.

Fixpoint stringify (v : value) : string :=
  match v with
  | VUndef => "undefined"
  | VNull => "null"
  | VBool b => if b then "true" else "false"
  | VNum n => string_of_Z n
  | VStr s => (quote ++ s ++ quote)%string
  | VObj kind props =>
      let body :=
        (fix members (l : list (string * value)) : string :=
           match l with
           | [] => EmptyString
           | (k, x) :: l' =>
               let member := match kind with
                             | Plain => (quote ++ k ++ quote ++ ":" ++ stringify x)%string
                             | Array _ => stringify x
                             end in
               match l' with
               | [] => member
               | _ => (member ++ "," ++ members l')%string
               end
           end) props in
      match kind with
      | Plain => ("{" ++ body ++ "}")%string
      | Array _ => ("[" ++ body ++ "]")%string
      end
  end.

Definition example_host (documents : list (string * value)) : Host :=
  {| JSON_parse := parse_document documents;
     plist_parse := parse_document documents;
     JSON_stringify := stringify;
     StringToNumber := parse_integer;
     ObjectToString := fun _ => "[object Object]";
     PathManagementStrategy_NotSet := "notset" |}.

Definition example_env (p : Platform) : Env :=
  {| platform := p;
     totalmem := 16 * 2 ^ 30;
     APPIMAGE := false;
     productionVersion := "1.7.0";
     paths_config := "/home/user/.config/rancher-desktop";
     paths_deploymentProfileSystem := "/etc/rancher-desktop";
     paths_deploymentProfileUser := "/home/user/.config/rancher-desktop";
     openKey := fun _ _ => None |}.

(** The state of a process that has just started, over a given file
    system. *)
Definition initial_state (fs : FileSystem) : State :=
  {| files := fs;
     writeFault := None;
     _isFirstRun := false;
     settings := None;
     noModalDialogs := false;
     saveCalls := [];
     errorBoxes := [] |}.

Definition no_files : FileSystem := fun _ => Fails ENOENT.

Definition with_file (path data : string) (fs : FileSystem) : FileSystem :=
  fun p => if p =? path then File data else fs p.

(** ** Vocabulary of the statements *)

(** The property of an object under a key other than [length]. *)
Definition field (props : list (string * value)) (k : string) : value :=
  match lookup k props with
  | Some v => v
  | None => VUndef
  end.

(** The kind of an object after a property other than [length] has been
    assigned. *)
Definition grow (kind : objkind) (k : string) : objkind :=
  match kind with
  | Plain => Plain
  | Array len =>
      match array_index k with
      | Some i => Array (N.max len (N.succ i))
      | None => Array len
      end
  end.

(** The value [mergeEntry] assigns under [k], if it assigns one. *)
Definition pending (m : value -> value) (props : list (string * value))
  (k : string) (sv : value) : option value :=
  match lookup k props with
  | Some ov =>
      if isObject sv then
        if isObject ov then Some (m ov)
        else match ov with
             | VUndef => Some (m (emptyLike sv))
             | _ => None
             end
      else match ov with
           | VUndef => match sv with
                       | VUndef => None
                       | _ => Some sv
                       end
           | _ => None
           end
  | None => if isObject sv then Some (m (emptyLike sv)) else Some sv
  end.

(** The merge of a list of source properties. *)
Definition mergeProps (l : list (string * value)) (o : value) : value :=
  fold_left (fun o kv => mergeEntry (baseMerge (snd kv)) o (fst kv) (snd kv)) l o.

(** Sources whose objects bind each key once and have no property named
    [length]. *)
Fixpoint source_ok (s : value) : bool :=
  match s with
  | VObj _ props =>
      (fix ok (l : list (string * value)) : bool :=
         match l with
         | [] => true
         | (k, v) :: l' =>
             negb (k =? "length") && negb (mem k l') && source_ok v && ok l'
         end) props
  | _ => true
  end.

(** The object without the property [k]. *)
Definition remove_key (o : value) (k : string) : value :=
  match o with
  | VObj kind props => VObj kind (assoc_remove k props)
  | _ => o
  end.

(** What the migration steps rely on: the [kubernetes] member is an
    object holding an [experimental] member, and the [containerEngine]
    member is an object. *)
Definition migratable (s : value) : Prop :=
  isObject s = true
  /\ isObject (get s "kubernetes") = true
  /\ nullish (get (get s "kubernetes") "experimental") = false
  /\ isObject (get s "containerEngine") = true.

(** A version 4 settings object as earlier releases wrote it. *)
Definition settings_v4 : value :=
  obj [
    ("version", VNum 4);
    ("kubernetes", obj [
      ("containerEngine", VStr "moby");
      ("suppressSudo", VBool true);
      ("experimental", obj [("socketVMNet", VBool false)])
    ]);
    ("containerEngine", obj [])
  ].


(** A process in its first run: no settings file was found. *)
Definition first_run_state : State :=
  {| files := no_files;
     writeFault := None;
     _isFirstRun := true;
     settings := None;
     noModalDialogs := false;
     saveCalls := [];
     errorBoxes := [] |}.

(** The exceptions of the language itself, as opposed to those of the
    file system. *)
Definition language_error (e : exn) : Prop :=
  match e with
  | TypeError | RangeError => True
  | _ => False
  end.

(** A settings directory holding an empty settings file. *)
Definition empty_settings_file : State :=
  initial_state
    (with_file (settings_json (example_env linux)) "" no_files).

(** A locked profile an administrator installs system-wide, and a
    defaults profile in the user's directory. *)
Definition locked_profile : value :=
  obj [("kubernetes", obj [("enabled", VBool false)])].

Definition defaults_profile : value :=
  obj [("kubernetes", obj [("version", VStr "1.25.4")])].

Definition profile_host : Host :=
  example_host [(stringify locked_profile, locked_profile);
                (stringify defaults_profile, defaults_profile)].

Definition profile_files : FileSystem :=
  with_file "/etc/rancher-desktop/locked.json" (stringify locked_profile)
    (with_file "/home/user/.config/rancher-desktop/defaults.json"
       (stringify defaults_profile) no_files).

(** The same locked profile in the machine hive of the registry. *)
Definition locked_registry_key : HKEY :=
  fun regPath name =>
    if list_eq_dec string_dec regPath ["Locked"; "kubernetes"]
    then if name =? "enabled" then RegValue (VNum 0) else RegNull
    else RegNull.

Definition registry_env (machine : HKEY) : Env :=
  {| platform := win32;
     totalmem := 16 * 2 ^ 30;
     APPIMAGE := false;
     productionVersion := "1.7.0";
     paths_config := "C:/Users/user/AppData/Roaming/rancher-desktop";
     paths_deploymentProfileSystem := "";
     paths_deploymentProfileUser := "";
     openKey := fun hive _ => match hive with
                              | HKLM => Some machine
                              | HKCU => None
                              end |}.

(** A machine hive in which reading any value under [Locked] fails. *)
Definition broken_locked_key : HKEY :=
  fun regPath _ =>
    match regPath with
    | "Locked" :: _ => RegThrows
    | _ => RegNull
    end.

(** [err.code === 'ENOENT'] *)
Definition is_enoent (err : exn) : bool :=
  match err with
  | SystemError ENOENT => true
  | _ => false
  end.

(** The settings [load] builds in its [catch] block; [enoent] tells
    whether the settings file was absent. *)
Definition fallbackSettings {host : Host} (env : Env) (enoent : bool) : value :=
  let s := clone defaultSettings in
  let s :=
    if enoent then
      match platform env with
      | darwin | linux =>
          set2 s "virtualMachine" "memoryInGB" (VNum (initialMemoryInGB env))
      | _ => s
      end
    else s in
  let s := match platform env with
           | linux =>
               if negb (APPIMAGE env)
               then set3 s "application" "updater" "enabled" (VBool false)
               else s
           | _ => s
           end in
  if includes "-" (productionVersion env) || includes "?" (productionVersion env)
  then set3 s "application" "updater" "enabled" (VBool false)
  else s.


(** The saved engine name is one of the [ContainerEngine] values. *)
Definition engine_recognized (cfg : value) : bool :=
  existsb (is_string (get (get cfg "containerEngine") "name"))
    ContainerEngine_values.

(** Every member of the defaults [d] has a value in [o], and so on
    within the members that are objects on both sides. *)
Fixpoint covers (d o : value) {struct d} : Prop :=
  match d with
  | VObj _ dprops =>
      (fix all (l : list (string * value)) : Prop :=
         match l with
         | [] => True
         | (k, sv) :: l' =>
             (get o k <> VUndef
              /\ (isObject sv = true -> isObject (get o k) = true ->
                  covers sv (get o k)))
             /\ all l'
         end) dprops
  | _ => True
  end.

(** Sources none of whose members is [undefined]. *)
Fixpoint defined_source (s : value) : bool :=
  match s with
  | VUndef => false
  | VObj _ props =>
      (fix all (l : list (string * value)) : bool :=
         match l with
         | [] => true
         | (_, v) :: l' => defined_source v && all l'
         end) props
  | _ => true
  end.

(** A host whose decoder reads back the encoding of the defaults. *)
Definition roundtrip_host : Host :=
  example_host [(stringify (@defaultSettings (example_host [])),
                 @defaultSettings (example_host []))].


(** [good s k v]: the member [v] under [k] is one the schema [s] has,
    with the type the schema gives it; [conforms p s]: every member of
    [p] is good, and so on within the members that are objects other
    than arrays. *)
#[warnings="-register-all"]
Inductive conforms : value -> value -> Prop :=
| conforms_object kind props s :
    (forall k v,
        lookup k props = Some v ->
        own s k = true
        /\ typeof v = typeof (get s k)
        /\ (isObject v = true -> isArray v = false -> conforms v (get s k))) ->
    conforms (VObj kind props) s.

Definition good (s : value) (k : string) (v : value) : Prop :=
  own s k = true
  /\ typeof v = typeof (get s k)
  /\ (isObject v = true -> isArray v = false -> conforms v (get s k)).

(** The [forEach] of [validateDeploymentProfile] over a list of
    properties. *)
Fixpoint validateEntries (schema : value) (entries : list (string * value))
  (profile : value) : result value :=
  match entries with
  | [] => Ok profile
  | (key, member) :: rest =>
      profile <- validateKey (validateDeploymentProfile member)
                   schema profile key member;;
      validateEntries schema rest profile
  end.

(** The loop of [readRegistryUsingSchema] over a list of schema
    entries. *)
Fixpoint registryEntries (regKey : HKEY) (regPath : list string)
  (l : list (string * value)) (newObject : value) : result value :=
  match l with
  | [] => Ok newObject
  | (schemaKey, schemaVal) :: l' =>
      regValue <-
        (if jstype_eqb (typeof schemaVal) TObject && negb (isArray schemaVal)
         then readRegistryUsingSchema schemaVal regKey (regPath ++ [schemaKey])
         else getValue regKey regPath schemaKey);;
      registryEntries regKey regPath l'
        (registryEntry schemaKey schemaVal regValue newObject)
  end.

(** [undefined], or a plain object that has a member and whose members
    all satisfy [P]. *)
Definition shaped (P : string -> value -> Prop) (v : value) : Prop :=
  v = VUndef
  \/ exists props, v = VObj Plain props /\ props <> []
                   /\ Forall (fun kv => P (fst kv) (snd kv)) props.

(** Values none of whose members, at any depth, is [null], [undefined]
    or an array: what a registry holding numbers and strings is read
    as. *)
Fixpoint plain_data (v : value) : bool :=
  match v with
  | VUndef | VNull => false
  | VObj Plain props =>
      (fix all (l : list (string * value)) : bool :=
         match l with
         | [] => true
         | (_, m) :: l' => plain_data m && all l'
         end) props
  | VObj (Array _) _ => false
  | _ => true
  end.

(** Schemas none of whose members, at any depth, is [null]. *)
Fixpoint null_free (s : value) : bool :=
  match s with
  | VNull => false
  | VObj _ props =>
      (fix all (l : list (string * value)) : bool :=
         match l with
         | [] => true
         | (_, m) :: l' => null_free m && all l'
         end) props
  | _ => true
  end.

(** A registry key under which every value is a number, a string or
    another primitive. *)
Definition primitive_registry (regKey : HKEY) : Prop :=
  forall regPath name v, regKey regPath name = RegValue v -> isObject v = false.

(** A profile member as the platform readers leave it: [undefined] or an
    object. *)
Definition profile_member (v : value) : Prop := v = VUndef \/ isObject v = true.

(** [read_as r s]: [r] is a plain object with at least one member; each
    member is named by a key of the schema [s] and is neither [null] nor
    [undefined]; it is a boolean where the schema has one, and is again
    such an object where the schema has an object other than an array. *)
#[warnings="-register-all"]
Inductive read_as : value -> value -> Prop :=
| read_as_object props s :
    props <> [] ->
    (forall name v,
        lookup name props = Some v ->
        own s name = true
        /\ nullish v = false
        /\ (typeof (get s name) = TBoolean -> typeof v = TBoolean)
        /\ (isObject (get s name) = true -> isArray (get s name) = false ->
            read_as v (get s name))) ->
    read_as (VObj Plain props) s.

(** A user hive that sets another member of the locked profile. *)
Definition user_registry_key : HKEY :=
  fun regPath name =>
    if list_eq_dec string_dec regPath ["Locked"; "kubernetes"]
    then if name =? "port" then RegValue (VNum 6444) else RegNull
    else RegNull.

(** A Windows machine with both hives. *)
Definition two_hive_env (machine user : HKEY) : Env :=
  {| platform := win32;
     totalmem := 16 * 2 ^ 30;
     APPIMAGE := false;
     productionVersion := "1.7.0";
     paths_config := "C:/Users/user/AppData/Roaming/rancher-desktop";
     paths_deploymentProfileSystem := "";
     paths_deploymentProfileUser := "";
     openKey := fun hive _ => match hive with
                              | HKLM => Some machine
                              | HKCU => Some user
                              end |}.

(** ** The Moby client ([mobyClient.ts])

    The parts of [MobyClient] that compute: the arguments [runClient]
    hands to the [docker] executable, and the loop of [waitForReady].
    An argument array is the list of its elements; [addContextOption]
    changes its array in place and returns it, so the list it returns is
    also what its caller's array holds afterwards. *)

Module Moby.

(** [args.includes(x)] *)
Definition includes (args : list string) (x : string) : bool :=
  existsb (String.eqb x) args.

(** [addContextOption]; [backend] is [this.vm.backend]. *)
Definition addContextOption (backend : string) (args : list string)
  : list string :=
  if backend =? "wsl" then args
  else if includes args "--context" then args
  else "--context" :: "rancher-desktop" :: args.

(** [args[i] === s] *)
Definition at_is (args : list string) (i : nat) (s : string) : bool :=
  match nth_error args i with
  | Some a => a =? s
  | None => false
  end.

(** [s.endsWith(suffix)] *)
Definition endsWith (s suffix : string) : bool :=
  substring (String.length s - String.length suffix) (String.length suffix) s
  =? suffix.

(** The first part of [runClient]: the arguments the executable is
    started with. *)
Definition runClient_args (backend : string) (args : list string)
  : list string :=
  if at_is args 0 "system" && at_is args 1 "info" then args
  else if at_is args 0 "image" && at_is args 1 "load"
          && endsWith (last args "") "rdx-proxy.tgz" then args
  else addContextOption backend args.

(** The loop of [waitForReady].  [outcomes] tells, for each call of
    [docker system info] in turn, whether it succeeds; the loop returns
    the outcomes it has not used, and [None] when it is still waiting
    after the last of them. *)
Fixpoint waitLoop (outcomes : list bool) (successCount : nat)
  : option (list bool) :=
  match outcomes with
  | [] => if (successCount <? 10)%nat then None else Some []
  | ok :: rest =>
      if (successCount <? 10)%nat
      then waitLoop rest (if ok then S successCount else 0%nat)
      else Some outcomes
  end.

Definition waitForReady (outcomes : list bool) : option (list bool) :=
  waitLoop outcomes 0.

End Moby.

(** ** The profile utilities of the end-to-end tests ([ProfileUtils.ts])

    The checks a test makes before it starts.  The file system is seen
    through [fs.promises.access] and the registry through the [reg]
    executable; both are given by what they answer. *)

Module ProfileUtils.

(** The messages the checks return, and the text of the errors they
    throw. *)
Inductive note :=
| NeedDelete (profilePath : string)
| NeedCreate (profilePaths : list string)
| NeedAddHive (hive : string)
| NeedRemoveHive (text : string)
| UnexpectedPlatform (platform : Platform).

Definition outcome (A : Type) : Type := (A + note)%type.

Definition getDeploymentBaseNames (platform : Platform)
  : outcome (list string) :=
  match platform with
  | linux => inl ["rancher-desktop.defaults.json"; "rancher-desktop.locked.json"]
  | darwin => inl ["io.rancherdesktop.profile.defaults.plist";
                   "io.rancherdesktop.profile.locked.plist"]
  | _ => inr (UnexpectedPlatform platform)
  end.

(** [s.replace(pattern, replacement)] for a string pattern: the first
    occurrence is replaced. *)
Fixpoint replace (pattern replacement s : string) : string :=
  if String.prefix pattern s
  then (replacement
        ++ substring (String.length pattern)
             (String.length s - String.length pattern) s)%string
  else match s with
       | EmptyString => EmptyString
       | String c s' => String c (replace pattern replacement s')
       end.

Definition is_linux (platform : Platform) : bool :=
  match platform with
  | linux => true
  | _ => false
  end.

Definition is_win32 (platform : Platform) : bool :=
  match platform with
  | win32 => true
  | _ => false
  end.

Definition getDeploymentPaths (env : Env) (platform : Platform)
  (profileDir : string) : outcome (list string) :=
  match getDeploymentBaseNames platform with
  | inl baseNames =>
      let baseNames :=
        if is_linux platform && (profileDir =? paths_deploymentProfileSystem env)
        then map (fun s => replace "rancher-desktop." "" s) baseNames
        else baseNames in
      inl (map (fun baseName => join profileDir baseName) baseNames)
  | inr e => inr e
  end.

(** [verifyRegistrySubtree] for the machine hive. *)
Definition verifyRegistrySubtree_HKLM (hasRegistrySubtree : string -> bool)
  : list note :=
  if hasRegistrySubtree "HKLM" then [] else [NeedAddHive "HKLM"].

(** [verifyNoSystemProfile]; [verifyNoRegistrySubtree] is the message of
    the error that call throws, if it throws. *)
Definition verifyNoSystemProfile (env : Env)
  (verifyNoRegistrySubtree : option string) (fileExists : string -> bool)
  : outcome (list note) :=
  let platform := platform env in
  match (if is_win32 platform then verifyNoRegistrySubtree else None) with
  | Some message => inl [NeedRemoveHive message]
  | None =>
      match getDeploymentPaths env platform (paths_deploymentProfileSystem env) with
      | inl profilePaths =>
          inl (map NeedDelete (filter fileExists profilePaths))
      | inr e => inr e
      end
  end.

(** [verifySystemProfile] *)
Definition verifySystemProfile (env : Env)
  (hasRegistrySubtree : string -> bool) (fileExists : string -> bool)
  : outcome (list note) :=
  let platform := platform env in
  if is_win32 platform then inl (verifyRegistrySubtree_HKLM hasRegistrySubtree)
  else
    match getDeploymentPaths env platform (paths_deploymentProfileSystem env) with
    | inl profilePaths =>
        if existsb fileExists profilePaths then inl []
        else inl [NeedCreate profilePaths]
    | inr e => inr e
    end.

End ProfileUtils.

(** * Properties *)

Local Open Scope js_scope.

(** ** The error monad *)

Lemma bind_Ok {A B} (c : result A) (k : A -> result B) (b : B) :
  bind c k = Ok b -> exists a, c = Ok a /\ k a = Ok b.
Proof. destruct c as [a|e]; simpl; [eauto | discriminate]. Qed.

Lemma Ok_inj {A} (a b : A) : Ok a = Ok b -> a = b.
Proof. now intros [= ->]. Qed.

Lemma bind_Throw {A B} (c : result A) (k : A -> result B) (e : exn) :
  bind c k = Throw e -> c = Throw e \/ exists a, c = Ok a /\ k a = Throw e.
Proof. destruct c as [a|e']; simpl; [eauto | intros [= ->]; auto]. Qed.

Ltac case_if :=
  match goal with
  | |- context [if ?c then _ else _] => destruct c eqn:?
  | H : context [if ?c then _ else _] |- _ => destruct c eqn:?
  end.

Ltac inv_bind H :=
  let a := fresh "x" in
  let E := fresh "E" in
  apply bind_Ok in H; destruct H as (a & E & H).

(** ** Property tables *)

Lemma eqb_sym_false (a b : string) : a <> b -> (a =? b) = false.
Proof. intros H. now apply String.eqb_neq. Qed.

Lemma lookup_assoc_set_same k v l : lookup k (assoc_set k v l) = Some v.
Proof.
  induction l as [|[k' v'] l IH]; simpl.
  - now rewrite String.eqb_refl.
  - destruct (k =? k') eqn:E; simpl.
    + now rewrite String.eqb_refl.
    + now rewrite E.
Qed.

Lemma lookup_assoc_set_other k k' v l :
  k' <> k -> lookup k' (assoc_set k v l) = lookup k' l.
Proof.
  intros Hne. induction l as [|[k0 v0] l IH]; simpl.
  - now rewrite (eqb_sym_false k' k).
  - destruct (k =? k0) eqn:E; simpl.
    + apply String.eqb_eq in E; subst k0.
      now rewrite (eqb_sym_false k' k).
    + now rewrite IH.
Qed.

Lemma assoc_set_id k v l : lookup k l = Some v -> assoc_set k v l = l.
Proof.
  induction l as [|[k' v'] l IH]; simpl; [discriminate|].
  destruct (k =? k') eqn:E; intros H.
  - apply String.eqb_eq in E; subst k'. now injection H as ->.
  - now rewrite IH.
Qed.

Lemma assoc_set_twice k v w l :
  assoc_set k v (assoc_set k w l) = assoc_set k v l.
Proof.
  induction l as [|[k' v'] l IH]; simpl.
  - now rewrite String.eqb_refl.
  - destruct (k =? k') eqn:E; simpl.
    + now rewrite String.eqb_refl.
    + now rewrite E, IH.
Qed.

Lemma lookup_remove_same k l : lookup k (assoc_remove k l) = None.
Proof.
  induction l as [|[k' v'] l IH]; simpl; [reflexivity|].
  destruct (k =? k') eqn:E; simpl; [assumption|].
  now rewrite E.
Qed.

Lemma lookup_remove_other k k' l :
  k' <> k -> lookup k' (assoc_remove k l) = lookup k' l.
Proof.
  intros Hne. induction l as [|[k0 v0] l IH]; simpl; [reflexivity|].
  destruct (k =? k0) eqn:E; simpl.
  - apply String.eqb_eq in E; subst k0.
    now rewrite (eqb_sym_false k' k).
  - now rewrite IH.
Qed.

Lemma mem_lookup k l : mem k l = true <-> exists v, lookup k l = Some v.
Proof.
  unfold mem. destruct (lookup k l); split; eauto; try discriminate.
  now intros [v [=]].
Qed.

(** ** Property access *)

Lemma get_field kind props k :
  k <> "length" -> get (VObj kind props) k = field props k.
Proof.
  intros H. unfold get, field. destruct kind; [reflexivity|].
  now rewrite (eqb_sym_false k "length").
Qed.

Lemma get_plain props k : get (VObj Plain props) k = field props k.
Proof. reflexivity. Qed.

Lemma setprop_object kind props k v o' :
  setprop (VObj kind props) k v = Ok o' ->
  k <> "length" ->
  exists kind', o' = VObj kind' (assoc_set k v props).
Proof.
  intros H Hk. destruct kind; simpl in H.
  - injection H as <-. eauto.
  - rewrite (eqb_sym_false k "length") in H by assumption.
    destruct (array_index k); injection H as <-; eauto.
Qed.

Lemma setprop_total kind props k v :
  k <> "length" -> exists o', setprop (VObj kind props) k v = Ok o'.
Proof.
  intros Hk. destruct kind; simpl; eauto.
  rewrite (eqb_sym_false k "length") by assumption.
  destruct (array_index k); eauto.
Qed.

Lemma setprop_isObject o k v o' : setprop o k v = Ok o' -> isObject o = true /\ isObject o' = true.
Proof.
  destruct o as [| | | | |kind props]; try discriminate.
  destruct kind; simpl.
  - now intros [= <-].
  - destruct (k =? "length").
    + destruct v; try discriminate.
      case_if; [|discriminate].
      now intros [= <-].
    + destruct (array_index k); now intros [= <-].
Qed.

Lemma get_setprop_same o k v o' :
  setprop o k v = Ok o' -> k <> "length" -> get o' k = v.
Proof.
  intros H Hk. destruct o as [| | | | |kind props]; try discriminate.
  destruct (setprop_object _ _ _ _ _ H Hk) as [kind' ->].
  rewrite get_field by assumption. unfold field.
  now rewrite lookup_assoc_set_same.
Qed.

Lemma get_setprop_other o k v o' k' :
  setprop o k v = Ok o' -> k <> "length" -> k' <> "length" -> k' <> k ->
  get o' k' = get o k'.
Proof.
  intros H Hk Hk' Hne. destruct o as [| | | | |kind props]; try discriminate.
  destruct (setprop_object _ _ _ _ _ H Hk) as [kind' ->].
  rewrite !get_field by assumption. unfold field.
  now rewrite lookup_assoc_set_other.
Qed.

Lemma get_store_same o k child :
  isObject o = true -> isObject child = true -> k <> "length" ->
  get (store o k child) k = child.
Proof.
  intros Ho Hc Hk. destruct o as [| | | | |kind props]; try discriminate.
  unfold store. rewrite Hc, get_field by assumption.
  unfold field. now rewrite lookup_assoc_set_same.
Qed.

Lemma get_store_other o k child k' :
  k' <> k -> k' <> "length" -> get (store o k child) k' = get o k'.
Proof.
  intros Hne Hk'. destruct o as [| | | | |kind props]; try reflexivity.
  unfold store. destruct (isObject child); [|reflexivity].
  rewrite !get_field by assumption. unfold field.
  now rewrite lookup_assoc_set_other.
Qed.

Lemma store_isObject o k child : isObject (store o k child) = isObject o.
Proof.
  destruct o as [| | | | |kind props]; try reflexivity.
  unfold store. now destruct (isObject child).
Qed.

Lemma delprop_object kind props k :
  k <> "length" ->
  delprop (VObj kind props) k = Ok (VObj kind (assoc_remove k props)).
Proof.
  intros Hk. unfold delprop.
  rewrite (eqb_sym_false k "length") by assumption.
  now rewrite andb_false_r.
Qed.

(** ** [defaultsDeep] *)

Lemma setprop_grow kind props k v :
  k <> "length" ->
  setprop (VObj kind props) k v = Ok (VObj (grow kind k) (assoc_set k v props)).
Proof.
  intros Hk. destruct kind; simpl; [reflexivity|].
  rewrite (eqb_sym_false k "length") by assumption.
  now destruct (array_index k).
Qed.

Lemma assignValue_object kind props k v :
  k <> "length" ->
  assignValue (VObj kind props) k v = VObj (grow kind k) (assoc_set k v props).
Proof. intros Hk. unfold assignValue. now rewrite setprop_grow. Qed.

Lemma assignValue_primitive o k v : isObject o = false -> assignValue o k v = o.
Proof. destruct o; try reflexivity. discriminate. Qed.

Lemma grow_twice kind k : grow (grow kind k) k = grow kind k.
Proof.
  destruct kind; simpl; [reflexivity|].
  destruct (array_index k) eqn:E; simpl; rewrite ?E; [|reflexivity].
  f_equal. lia.
Qed.

Lemma grow_settled kind k k' : grow kind k = kind -> grow (grow kind k') k = grow kind k'.
Proof.
  destruct kind; simpl; [reflexivity|].
  destruct (array_index k) eqn:E, (array_index k') eqn:E'; simpl; rewrite ?E;
    try reflexivity; intros [= H]; f_equal; lia.
Qed.

Lemma assoc_set_fixed k v l : assoc_set k v l = l -> lookup k l = Some v.
Proof. intros H. rewrite <- H. apply lookup_assoc_set_same. Qed.

Lemma baseMerge_props kind sprops o :
  baseMerge (VObj kind sprops) o = mergeProps sprops o.
Proof.
  unfold mergeProps. simpl. revert o.
  induction sprops as [|[k sv] l IH]; intros o; simpl; [reflexivity|].
  apply IH.
Qed.

Lemma mergeEntry_cases m o k sv :
  mergeEntry m o k sv = o \/ exists w, mergeEntry m o k sv = assignValue o k w.
Proof.
  unfold mergeEntry.
  destruct (isObject sv).
  - destruct (isObject (get o k)); [eauto|].
    destruct (get o k); eauto.
  - destruct (get o k); eauto.
    destruct sv; eauto.
    destruct (own o k); eauto.
Qed.

Lemma assignValue_isObject o k v : isObject (assignValue o k v) = isObject o.
Proof.
  unfold assignValue. destruct (setprop o k v) eqn:E; [|reflexivity].
  apply setprop_isObject in E. destruct E as [-> ->]. reflexivity.
Qed.

Lemma mergeEntry_isObject m o k sv : isObject (mergeEntry m o k sv) = isObject o.
Proof.
  destruct (mergeEntry_cases m o k sv) as [-> | [w ->]]; [reflexivity|].
  apply assignValue_isObject.
Qed.

Lemma mergeProps_isObject l o : isObject (mergeProps l o) = isObject o.
Proof.
  unfold mergeProps. revert o.
  induction l as [|[k sv] l IH]; intros o; simpl; [reflexivity|].
  rewrite IH. apply mergeEntry_isObject.
Qed.

Lemma baseMerge_isObject s o : isObject (baseMerge s o) = isObject o.
Proof.
  destruct s; try reflexivity.
  rewrite baseMerge_props. apply mergeProps_isObject.
Qed.

Lemma mergeEntry_primitive m o k sv : isObject o = false -> mergeEntry m o k sv = o.
Proof.
  intros H. destruct (mergeEntry_cases m o k sv) as [-> | [w ->]]; [reflexivity|].
  now apply assignValue_primitive.
Qed.

Lemma mergeEntry_object m kind props k sv :
  k <> "length" ->
  mergeEntry m (VObj kind props) k sv =
  match pending m props k sv with
  | Some w => VObj (grow kind k) (assoc_set k w props)
  | None => VObj kind props
  end.
Proof.
  intros Hk. unfold mergeEntry, pending.
  rewrite get_field by assumption. unfold field.
  assert (Hown : own (VObj kind props) k = mem k props).
  { unfold own. destruct kind; [reflexivity|].
    now rewrite (eqb_sym_false k "length"). }
  rewrite Hown. unfold mem.
  destruct (lookup k props) as [ov|] eqn:El.
  - destruct (isObject sv).
    + destruct (isObject ov); [now apply assignValue_object|].
      destruct ov; try reflexivity. now apply assignValue_object.
    + destruct ov; try reflexivity.
      destruct sv; try reflexivity; now apply assignValue_object.
  - destruct (isObject sv) eqn:Hsv; [now apply assignValue_object|].
    destruct sv; try discriminate; now apply assignValue_object.
Qed.

Lemma pending_ext m props props' k sv :
  lookup k props' = lookup k props ->
  pending m props' k sv = pending m props k sv.
Proof. intros H. unfold pending. now rewrite H. Qed.

Lemma emptyLike_isObject sv : isObject (emptyLike sv) = true.
Proof. unfold emptyLike. now destruct (isArray sv). Qed.

(** Once the pending value is written, there is nothing more to write
    or the same value again. *)
Lemma pending_written m props k sv w :
  (forall x, m (m x) = m x) ->
  (forall x, isObject (m x) = isObject x) ->
  pending m props k sv = Some w ->
  pending m (assoc_set k w props) k sv = None \/
  pending m (assoc_set k w props) k sv = Some w.
Proof.
  intros Hidem Hobj H. unfold pending in *.
  rewrite lookup_assoc_set_same.
  destruct (lookup k props) as [ov|].
  - destruct (isObject sv) eqn:Hsv.
    + destruct (isObject ov) eqn:Hov.
      * injection H as <-. rewrite Hobj, Hov, Hidem. now right.
      * destruct ov; try discriminate. injection H as <-.
        rewrite Hobj, emptyLike_isObject, Hidem. now right.
    + destruct ov; try discriminate.
      destruct sv; try discriminate; injection H as <-; now left.
  - destruct (isObject sv) eqn:Hsv.
    + injection H as <-. rewrite Hobj, emptyLike_isObject, Hidem. now right.
    + injection H as <-. destruct sv; try discriminate; now left.
Qed.

(** A source property merged once is settled: merging it again changes
    nothing. *)
Lemma mergeEntry_idem m o k sv :
  k <> "length" ->
  (forall x, m (m x) = m x) ->
  (forall x, isObject (m x) = isObject x) ->
  mergeEntry m (mergeEntry m o k sv) k sv = mergeEntry m o k sv.
Proof.
  intros Hk Hidem Hobj.
  destruct (isObject o) eqn:Ho.
  2:{ rewrite (mergeEntry_primitive m o k sv Ho).
      apply (mergeEntry_primitive m o k sv Ho). }
  destruct o as [| | | | |kind props]; try discriminate.
  rewrite (mergeEntry_object m kind props) by assumption.
  destruct (pending m props k sv) as [w|] eqn:Hp.
  - rewrite mergeEntry_object by assumption.
    destruct (pending_written m props k sv w Hidem Hobj Hp) as [-> | ->];
      [reflexivity|].
    now rewrite grow_twice, assoc_set_twice.
  - rewrite mergeEntry_object by assumption. now rewrite Hp.
Qed.

(** A settled source property stays settled when another key is
    merged. *)
Lemma mergeEntry_settled m m' o k sv k' sv' :
  k <> "length" -> k' <> "length" -> k <> k' ->
  mergeEntry m o k sv = o ->
  mergeEntry m (mergeEntry m' o k' sv') k sv = mergeEntry m' o k' sv'.
Proof.
  intros Hk Hk' Hne Hset.
  destruct (isObject o) eqn:Ho.
  2:{ rewrite (mergeEntry_primitive m' o k' sv' Ho). assumption. }
  destruct o as [| | | | |kind props]; try discriminate.
  rewrite (mergeEntry_object m' kind props) by assumption.
  destruct (pending m' props k' sv') as [w'|]; [|assumption].
  rewrite mergeEntry_object in * by assumption.
  rewrite (pending_ext m props (assoc_set k' w' props))
    by now apply lookup_assoc_set_other.
  destruct (pending m props k sv) as [w|]; [|reflexivity].
  injection Hset as Hkind Hprops.
  rewrite grow_settled by assumption.
  f_equal. apply assoc_set_id.
  rewrite lookup_assoc_set_other by assumption.
  now apply assoc_set_fixed.
Qed.

Lemma mergeProps_settled m k sv l o :
  k <> "length" ->
  Forall (fun kv => fst kv <> "length" /\ fst kv <> k) l ->
  mergeEntry m o k sv = o ->
  mergeEntry m (mergeProps l o) k sv = mergeProps l o.
Proof.
  intros Hk Hl. revert o. unfold mergeProps.
  induction Hl as [|[k' sv'] l [Hk' Hne] _ IH]; intros o Hset; simpl;
    [assumption|].
  apply IH. apply mergeEntry_settled; simpl in *; auto.
Qed.

Lemma source_ok_inv kind k v l :
  source_ok (VObj kind ((k, v) :: l)) = true ->
  k <> "length" /\ mem k l = false /\ source_ok v = true
  /\ source_ok (VObj kind l) = true.
Proof.
  simpl. rewrite !andb_true_iff, !negb_true_iff.
  intros [[[H1 H2] H3] H4]. repeat split; try assumption.
  now apply String.eqb_neq.
Qed.

Lemma source_ok_keys kind l :
  source_ok (VObj kind l) = true -> Forall (fun kv => fst kv <> "length") l.
Proof.
  induction l as [|[k v] l IH]; intros H; constructor.
  - now apply source_ok_inv in H.
  - apply IH. now apply source_ok_inv in H.
Qed.

Lemma mem_false_keys k l :
  mem k l = false -> Forall (fun kv => fst kv <> k) l.
Proof.
  unfold mem. induction l as [|[k' v'] l IH]; simpl; intros H; constructor.
  - simpl. intros ->. now rewrite String.eqb_refl in H.
  - apply IH. now destruct (k =? k').
Qed.

(** After the merge of a list of source properties, each of them is
    settled; so a second merge changes nothing. *)
Lemma mergeProps_idem kind l :
  source_ok (VObj kind l) = true ->
  Forall (fun kv => forall x, baseMerge (snd kv) (baseMerge (snd kv) x)
                              = baseMerge (snd kv) x) l ->
  forall o,
    Forall (fun kv => mergeEntry (baseMerge (snd kv)) (mergeProps l o)
                        (fst kv) (snd kv) = mergeProps l o) l.
Proof.
  intros Hok Hidem.
  induction l as [|[k sv] l IH]; intros o; [constructor|].
  apply source_ok_inv in Hok. destruct Hok as (Hk & Hmem & Hsv & Hl).
  inversion Hidem as [|? ? Hm Hidem']; subst.
  constructor.
  - unfold mergeProps at 1 2. simpl fold_left. fold (mergeProps l).
    simpl fst; simpl snd.
    apply mergeProps_settled; [assumption| |].
    + pose proof (source_ok_keys _ _ Hl) as H1.
      pose proof (mem_false_keys _ _ Hmem) as H2.
      rewrite Forall_forall in *. intros kv Hin. split; auto.
    + apply mergeEntry_idem; [assumption|exact Hm|].
      intros x. apply baseMerge_isObject.
  - unfold mergeProps at 1 2. simpl fold_left.
    apply (IH Hl Hidem').
Qed.

Lemma mergeProps_fixed l o :
  Forall (fun kv => mergeEntry (baseMerge (snd kv)) o (fst kv) (snd kv) = o) l ->
  mergeProps l o = o.
Proof.
  unfold mergeProps. induction 1 as [|[k sv] l H _ IH]; simpl; [reflexivity|].
  simpl in H. now rewrite H.
Qed.

(** [defaultsDeep] with the same source is idempotent. *)
Lemma baseMerge_idem s :
  source_ok s = true ->
  forall o, baseMerge s (baseMerge s o) = baseMerge s o.
Proof.
  induction s as [| | | | |kind props IH] using value_ind; try reflexivity.
  intros Hok o. rewrite !baseMerge_props.
  apply mergeProps_fixed. apply mergeProps_idem with (kind := kind); [assumption|].
  clear o. induction props as [|[k v] l IHl]; constructor.
  - inversion IH; subst. apply source_ok_inv in Hok.
    simpl in *. tauto.
  - apply IHl.
    + now inversion IH.
    + now apply source_ok_inv in Hok.
Qed.

(** A property that holds a primitive is left alone by the merge. *)
Lemma mergeProps_keeps k v l :
  Forall (fun kv => fst kv <> "length") l ->
  isObject v = false -> v <> VUndef ->
  forall kind props,
    lookup k props = Some v ->
    exists kind' props',
      mergeProps l (VObj kind props) = VObj kind' props'
      /\ lookup k props' = Some v.
Proof.
  intros Hl Hv Hu. unfold mergeProps.
  induction Hl as [|[k' sv'] l Hk' _ IH]; intros kind props Hlook; simpl.
  - eauto.
  - simpl in Hk'. rewrite mergeEntry_object by assumption.
    destruct (pending (baseMerge sv') props k' sv') as [w|] eqn:Hp.
    + apply IH. destruct (String.eqb_spec k k') as [->|Hne].
      * unfold pending in Hp. rewrite Hlook, Hv in Hp.
        destruct (isObject sv'); destruct v; try discriminate; congruence.
      * now rewrite lookup_assoc_set_other.
    + now apply IH.
Qed.

Section Migration.
Context {host : Host}.

Lemma defaultSettings_source_ok : source_ok defaultSettings = true.
Proof. reflexivity. Qed.

Lemma defaultsDeep_idem o :
  defaultsDeep (defaultsDeep o defaultSettings) defaultSettings
  = defaultsDeep o defaultSettings.
Proof. apply baseMerge_idem, defaultSettings_source_ok. Qed.

Lemma defaultsDeep_keeps_version kind props :
  lookup "version" props = Some (VNum CURRENT_SETTINGS_VERSION) ->
  exists kind' props',
    defaultsDeep (VObj kind props) defaultSettings = VObj kind' props'
    /\ lookup "version" props' = Some (VNum CURRENT_SETTINGS_VERSION).
Proof.
  intros H. unfold defaultsDeep, defaultSettings, obj.
  rewrite baseMerge_props.
  apply mergeProps_keeps; try assumption; try reflexivity; try discriminate.
  apply (source_ok_keys Plain). exact defaultSettings_source_ok.
Qed.

Lemma updateSettings_defaultSettings :
  updateSettings defaultSettings = Ok defaultSettings.
Proof. reflexivity. Qed.

(** Migrated settings are a fixed point of the migration. *)
Lemma updateSettings_current kind props :
  lookup "version" props = Some (VNum CURRENT_SETTINGS_VERSION) ->
  defaultsDeep (VObj kind props) defaultSettings = VObj kind props ->
  updateSettings (VObj kind props) = Ok (VObj kind props).
Proof.
  intros Hv Hfix. unfold updateSettings. simpl Object_keys. cbn [bind].
  destruct props as [|kv props']; [discriminate|].
  cbn [List.length map Nat.eqb]. unfold getprop. cbn [nullish bind].
  rewrite get_field by discriminate. unfold field. rewrite Hv.
  change (js_or (VNum CURRENT_SETTINGS_VERSION) (VNum 0))
    with (VNum CURRENT_SETTINGS_VERSION).
  cbn [ToNumber]. rewrite Z.ltb_irrefl. cbn [bind].
  rewrite setprop_grow by discriminate. cbn [bind].
  rewrite (assoc_set_id _ _ _ Hv).
  replace (grow kind "version") with kind by (now destruct kind).
  now rewrite Hfix.
Qed.

(** [C3] Migration is idempotent: migrating the outcome of a migration
    gives that outcome again, for every raw settings value; when the
    migration of the raw value throws, so does the composite. *)
Theorem migration_idempotent (r : value) :
  (m <- updateSettings r;; updateSettings m) = updateSettings r.
Proof.
  destruct (updateSettings r) as [m|e] eqn:E; [|reflexivity].
  cbn [bind]. unfold updateSettings in E.
  inv_bind E. case_if.
  - injection E as <-. apply updateSettings_defaultSettings.
  - inv_bind E. inv_bind E. inv_bind E. apply Ok_inj in E. subst m.
    match goal with H : setprop _ "version" _ = Ok _ |- _ => rename H into Hset end.
    pose proof (setprop_isObject _ _ _ _ Hset) as [Ho _].
    match type of Ho with isObject ?s = true => destruct s as [| | | | |kind props]; try discriminate end.
    rewrite setprop_grow in Hset by discriminate. injection Hset as <-.
    destruct (defaultsDeep_keeps_version (grow kind "version")
                (assoc_set "version" (VNum CURRENT_SETTINGS_VERSION) props))
      as (kind' & props' & Heq & Hv).
    { apply lookup_assoc_set_same. }
    rewrite Heq. apply updateSettings_current; [assumption|].
    rewrite <- Heq. apply defaultsDeep_idem.
Qed.

End Migration.

(** ** Straight-line code on objects

    When the bases are objects, the property operations succeed and
    their results are given by total functions. *)

Lemma isObject_not_nullish o : isObject o = true -> nullish o = false.
Proof. now destruct o. Qed.

Lemma getprop_ok o k : nullish o = false -> getprop o k = Ok (get o k).
Proof. intros H. unfold getprop. now rewrite H. Qed.

Lemma get2_ok s a b :
  nullish s = false -> nullish (get s a) = false ->
  get2 s a b = Ok (get (get s a) b).
Proof.
  intros H1 H2. unfold get2. rewrite getprop_ok by assumption.
  cbn [bind]. now apply getprop_ok.
Qed.

Lemma get3_ok s a b c :
  nullish s = false -> nullish (get s a) = false ->
  nullish (get (get s a) b) = false ->
  get3 s a b c = Ok (get (get (get s a) b) c).
Proof.
  intros H1 H2 H3. unfold get3. rewrite get2_ok by assumption.
  cbn [bind]. now apply getprop_ok.
Qed.

Lemma setprop_ok o k v :
  isObject o = true -> k <> "length" -> setprop o k v = Ok (assignValue o k v).
Proof.
  intros Ho Hk. destruct o as [| | | | |kind props]; try discriminate.
  rewrite assignValue_object by assumption. now apply setprop_grow.
Qed.

Lemma delprop_ok o k :
  isObject o = true -> k <> "length" -> delprop o k = Ok (remove_key o k).
Proof.
  intros Ho Hk. destruct o as [| | | | |kind props]; try discriminate.
  now apply delprop_object.
Qed.

Lemma delete2_ok s a b :
  isObject s = true -> isObject (get s a) = true -> b <> "length" ->
  delete2 s a b = Ok (store s a (remove_key (get s a) b)).
Proof.
  intros Hs Ha Hb. unfold delete2.
  rewrite getprop_ok by now apply isObject_not_nullish.
  cbn [bind]. rewrite delprop_ok by assumption. reflexivity.
Qed.

Lemma isObject_remove_key o k : isObject (remove_key o k) = isObject o.
Proof. now destruct o. Qed.

Lemma get_assignValue_same o k v :
  isObject o = true -> k <> "length" -> get (assignValue o k v) k = v.
Proof.
  intros Ho Hk. destruct o as [| | | | |kind props]; try discriminate.
  rewrite assignValue_object, get_field by assumption.
  unfold field. now rewrite lookup_assoc_set_same.
Qed.

Lemma get_assignValue_other o k v k' :
  k' <> k -> k <> "length" -> k' <> "length" ->
  get (assignValue o k v) k' = get o k'.
Proof.
  intros Hne Hk Hk'. destruct o as [| | | | |kind props]; try reflexivity.
  rewrite assignValue_object, !get_field by assumption.
  unfold field. now rewrite lookup_assoc_set_other.
Qed.

Lemma get_remove_key_other o k k' :
  k' <> k -> k' <> "length" -> get (remove_key o k) k' = get o k'.
Proof.
  intros Hne Hk'. destruct o as [| | | | |kind props]; try reflexivity.
  unfold remove_key. rewrite !get_field by assumption.
  unfold field. now rewrite lookup_remove_other.
Qed.

Create Rewrite HintDb js.
#[local] Hint Rewrite isObject_remove_key store_isObject assignValue_isObject : js.
#[local] Hint Rewrite get_assignValue_other using discriminate : js.
#[local] Hint Rewrite get_remove_key_other using discriminate : js.
#[local] Hint Rewrite get_store_other using discriminate : js.

(** Solves the side conditions of the lemmas above. *)
Ltac js_norm :=
  repeat (progress autorewrite with js
          || rewrite get_store_same by js_side)
with js_side :=
  try discriminate;
  js_norm;
  first [ assumption
        | reflexivity
        | apply isObject_not_nullish; js_norm; assumption
        | idtac ].

(** ** Migration of an older settings object *)

Section MigrationSteps.
Context {host : Host}.
















End MigrationSteps.

Lemma js_or_number v : js_or (VNum v) (VNum 0) = VNum v.
Proof.
  unfold js_or, truthy. destruct (Z.eqb_spec v 0) as [->|]; reflexivity.
Qed.

Lemma get_number_lookup kind props k n :
  k <> "length" -> get (VObj kind props) k = VNum n ->
  lookup k props = Some (VNum n).
Proof.
  intros Hk. rewrite get_field by assumption. unfold field.
  destruct (lookup k props); [now intros -> | discriminate].
Qed.




(** ** The walk of [getUpdatableNode] *)





(** ** Strings as bases of a property access *)





(** ** The command-line parser *)



Lemma follow_snoc cfg path field :
  follow cfg (path ++ [field]) = get (follow cfg path) field.
Proof.
  revert cfg. induction path as [|k path IH]; intros cfg; [reflexivity|].
  apply IH.
Qed.

Section CommandLine.
Context {host : Host}.
Variable env : Env.


(** [processArguments] only touches the transient settings. *)
Lemma processArguments_state all :
  forall n args ext cfg st cfg' st' ext',
    (List.length args <= n)%nat ->
    processArguments all args ext cfg st = Ok (cfg', st', ext') ->
    files st' = files st /\ writeFault st' = writeFault st
    /\ _isFirstRun st' = _isFirstRun st /\ settings st' = settings st
    /\ saveCalls st' = saveCalls st /\ errorBoxes st' = errorBoxes st.
Proof.
  induction n as [|n IH]; intros args ext cfg st cfg' st' ext' Hlen H.
  - destruct args; [|simpl in Hlen; lia].
    simpl in H. apply Ok_inj in H. injection H as _ <- _. now repeat split.
  - destruct args as [|arg rest].
    { simpl in H. apply Ok_inj in H. injection H as _ <- _. now repeat split. }
    simpl in Hlen.
    assert (Hrest : (List.length rest <= n)%nat) by lia.
    cbn [processArguments] in H.
    repeat match type of H with
           | (if ?c then _ else _) = Ok _ => destruct c eqn:?
           | Throw _ = Ok _ => discriminate H
           | bind _ _ = Ok _ => inv_bind H
           | match ?x with _ => _ end = Ok _ => destruct x eqn:?
           end;
      try (apply IH in H; [|simpl in *; lia]; simpl in H; exact H).
Qed.

End CommandLine.

Lemma saveCalls_save (host : Host) env cfg st :
  saveCalls (save env cfg st) = cfg :: saveCalls st.
Proof. unfold save. now destruct (writeFault st). Qed.

Lemma list_neq_cons {A} (x : A) (l : list A) : l <> x :: l.
Proof.
  intros H. apply (f_equal (@List.length A)) in H. simpl in H. lia.
Qed.

(** [C4, amended] [updateFromCommandLine] saves the settings and clears
    the first-run flag exactly when the argument list is not empty
    (and no argument raised an error), whether or not an argument was
    taken as an override; with an empty list the settings and the state
    are returned as they were. *)
Theorem updateFromCommandLine_saves_iff_arguments (host : Host) (env : Env)
  (cfg : value) (commandLineArgs : list string) (st : State)
  (cfg' : value) (st' : State) :
  updateFromCommandLine env cfg commandLineArgs st = Ok (cfg', st') ->
  ((saveCalls st' = cfg' :: saveCalls st /\ _isFirstRun st' = false)
   <-> commandLineArgs <> [])
  /\ (commandLineArgs = [] -> cfg' = cfg /\ st' = st).
Proof.
  intros H. unfold updateFromCommandLine in H. inv_bind H.
  destruct x as [[cfg1 st1] ext].
  destruct commandLineArgs as [|arg rest].
  - simpl in E. apply Ok_inj in E. injection E as <- <- _.
    simpl in H. apply Ok_inj in H. injection H as <- <-.
    split; [|auto]. split; [|congruence].
    intros [Hs _]. now apply list_neq_cons in Hs.
  - apply (processArguments_state _ (List.length (arg :: rest))) in E;
      [|apply Nat.le_refl].
    destruct E as (_ & _ & _ & _ & Hcalls & _).
    cbn [List.length Nat.ltb Nat.leb] in H.
    apply Ok_inj in H. injection H as <- <-.
    split; [|discriminate]. split; [discriminate|]. intros _.
    split; [|reflexivity].
    cbn [saveCalls set_isFirstRun]. now rewrite saveCalls_save, Hcalls.
Qed.

Lemma updateFromCommandLine_saves_iff_arguments_witness :
  exists cfg' st',
    @updateFromCommandLine (example_host []) (example_env linux)
      (@defaultSettings (example_host [])) ["--virtualMachine.memoryInGB=8"]
      first_run_state = Ok (cfg', st')
    /\ saveCalls st' = [cfg'] /\ _isFirstRun st' = false.
Proof.
  destruct (@updateFromCommandLine (example_host []) (example_env linux)
              (@defaultSettings (example_host [])) ["--virtualMachine.memoryInGB=8"]
              first_run_state) as [[cfg' st']|e] eqn:E; [|discriminate E].
  exists cfg', st'. split; [reflexivity|].
  destruct (updateFromCommandLine_saves_iff_arguments _ _ _ _ _ _ _ E)
    as [[_ Hsaved] _].
  apply Hsaved. discriminate.
Defined.

(** [C4, as stated] fails: the single argument [foo] is not an override
    and is skipped (the loop ends still processing external arguments),
    yet the settings are saved and the first-run flag is cleared. *)
Lemma external_argument_alone_is_saved :
  @processArguments (example_host []) ["foo"] ["foo"] true
    (@defaultSettings (example_host [])) first_run_state
  = Ok (@defaultSettings (example_host []), first_run_state, true)
  /\ exists st',
       @updateFromCommandLine (example_host []) (example_env linux)
         (@defaultSettings (example_host [])) ["foo"] first_run_state
       = Ok (@defaultSettings (example_host []), st')
       /\ saveCalls st' = [@defaultSettings (example_host [])]
       /\ _isFirstRun first_run_state = true
       /\ _isFirstRun st' = false.
Proof.
  split; [reflexivity|].
  eexists. split; [reflexivity|]. repeat split.
Qed.



(** ** Which exceptions the settings code raises *)

Lemma getprop_throw o k e : getprop o k = Throw e -> language_error e.
Proof. unfold getprop. destruct (nullish o); [now intros [= <-] | discriminate]. Qed.

Lemma has_in_throw k o e : has_in k o = Throw e -> language_error e.
Proof. destruct o; simpl; try discriminate; now intros [= <-]. Qed.

Lemma setprop_throw o k v e : setprop o k v = Throw e -> language_error e.
Proof.
  destruct o as [| | | | |kind props]; simpl; try (now intros [= <-]).
  destruct kind; [discriminate|].
  destruct (k =? "length").
  - destruct v; try (now intros [= <-]).
    case_if; [discriminate | now intros [= <-]].
  - destruct (array_index k); discriminate.
Qed.

Lemma delprop_throw o k e : delprop o k = Throw e -> language_error e.
Proof.
  destruct o as [| | | | s |kind props]; simpl; try discriminate;
    try (now intros [= <-]).
  - case_if; [now intros [= <-] | discriminate].
  - case_if; [now intros [= <-] | discriminate].
Qed.

Lemma Object_keys_throw o e : Object_keys o = Throw e -> language_error e.
Proof. destruct o; simpl; try discriminate; now intros [= <-]. Qed.

(** Follows a chain of property operations to the one that threw. *)
Ltac throw_chain H :=
  lazymatch type of H with
  | getprop _ _ = Throw _ => exact (getprop_throw _ _ _ H)
  | has_in _ _ = Throw _ => exact (has_in_throw _ _ _ H)
  | setprop _ _ _ = Throw _ => exact (setprop_throw _ _ _ _ H)
  | delprop _ _ = Throw _ => exact (delprop_throw _ _ _ H)
  | Object_keys _ = Throw _ => exact (Object_keys_throw _ _ H)
  | Ok _ = Throw _ => discriminate H
  | get2 _ _ _ = Throw _ => unfold get2 in H; throw_chain H
  | get3 _ _ _ _ = Throw _ => unfold get3 in H; throw_chain H
  | delete2 _ _ _ = Throw _ => unfold delete2 in H; throw_chain H
  | bind _ _ = Throw _ =>
      let E := fresh "E" in
      apply bind_Throw in H; destruct H as [H | (? & E & H)];
      [throw_chain H | throw_chain H]
  | (if ?c then _ else _) = Throw _ => destruct c; throw_chain H
  end.

Section Store.
Context {host : Host}.
Variable env : Env.

Lemma update1_throw s e : update1 s = Throw e -> language_error e.
Proof. intros H. unfold update1 in H. throw_chain H. Qed.

Lemma update4_throw s e : update4 s = Throw e -> language_error e.
Proof. intros H. unfold update4 in H. throw_chain H. Qed.

Lemma updateTable_throw k step s e :
  table_lookup k updateTable = Some step -> step s = Throw e -> language_error e.
Proof.
  unfold updateTable, table_lookup.
  repeat case_if; intros [= <-]; try discriminate;
    first [apply update1_throw | apply update4_throw].
Qed.

Lemma updateLoop_throw count : forall lv s e,
  updateLoop count lv s = Throw e -> language_error e.
Proof.
  induction count as [|count IH]; intros lv s e H; cbn [updateLoop] in H;
    [discriminate|].
  apply bind_Throw in H. destruct H as [H | (s' & _ & H)].
  - destruct (table_lookup (ToPropertyKey lv) updateTable) eqn:E;
      [|discriminate H].
    eapply updateTable_throw; eassumption.
  - now apply IH in H.
Qed.

Lemma updateSettings_throw r e : updateSettings r = Throw e -> language_error e.
Proof.
  intros H. unfold updateSettings in H.
  apply bind_Throw in H. destruct H as [H | (keys & _ & H)]; [throw_chain H|].
  case_if; [discriminate|].
  apply bind_Throw in H. destruct H as [H | (version & _ & H)]; [throw_chain H|].
  apply bind_Throw in H. destruct H as [H | (s & _ & H)].
  - destruct (ToNumber (js_or version (VNum 0))); [|discriminate].
    case_if; [|discriminate]. now apply updateLoop_throw in H.
  - throw_chain H.
Qed.

Lemma isFirstRun_save cfg st : _isFirstRun (save env cfg st) = _isFirstRun st.
Proof. unfold save. now destruct (writeFault st). Qed.

(** [loadFromDisk] throws a file-system error only when the settings
    file cannot be read, with the error code of that failure. *)
Lemma loadFromDisk_throw st e :
  loadFromDisk env st = Throw e ->
  (exists code, files st (settings_json env) = Fails code /\ e = SystemError code)
  \/ (exists data, files st (settings_json env) = File data /\ language_error e).
Proof.
  intros H. unfold loadFromDisk, readFileSync in H.
  destruct (files st (settings_json env)) as [code|data]; cbn [bind] in H.
  - left. exists code. split; [reflexivity | congruence].
  - right. exists data. split; [reflexivity|].
    destruct (JSON_parse data); [|discriminate].
    apply bind_Throw in H. destruct H as [H | (cfg & _ & H)];
      [now apply updateSettings_throw in H|].
    apply bind_Throw in H. destruct H as [H | (name & _ & H)]; [throw_chain H|].
    case_if; [throw_chain H|]. case_if; discriminate.
Qed.

Lemma loadFromDisk_ok st cfg st' :
  loadFromDisk env st = Ok (cfg, st') ->
  (exists data, files st (settings_json env) = File data)
  /\ _isFirstRun st' = _isFirstRun st.
Proof.
  intros H. unfold loadFromDisk, readFileSync in H.
  destruct (files st (settings_json env)) as [code|data]; cbn [bind] in H;
    [discriminate|].
  split; [eauto|].
  destruct (JSON_parse data).
  - inv_bind H. inv_bind H. case_if.
    + inv_bind H. inv_bind H. apply Ok_inj in H. injection H as _ <-.
      apply isFirstRun_save.
    + case_if; apply Ok_inj in H; injection H as _ <-;
        [apply isFirstRun_save | reflexivity].
  - apply Ok_inj in H. injection H as _ <-. apply isFirstRun_save.
Qed.

End Store.

(** [C9] In a process that has not loaded its settings yet and whose
    first-run flag is still clear: when the settings file exists but
    does not decode, [load] saves the compiled-in defaults and returns
    them, at the current version, without raising, and the first-run
    flag stays clear; and after [load] the flag is set exactly when the
    settings file was absent. *)
Theorem load_decode_failure_and_first_run (host : Host) (env : Env) (st : State) :
  settings st = None ->
  _isFirstRun st = false ->
  (forall data,
      files st (settings_json env) = File data ->
      JSON_parse data = None ->
      fst (load env st) = defaultSettings
      /\ get (fst (load env st)) "version" = VNum CURRENT_SETTINGS_VERSION
      /\ saveCalls (snd (load env st)) = defaultSettings :: saveCalls st
      /\ (writeFault st = None ->
          files (snd (load env st)) (settings_json env)
          = File (JSON_stringify defaultSettings))
      /\ firstRunDialogNeeded (snd (load env st)) = false)
  /\ (firstRunDialogNeeded (snd (load env st)) = true
      <-> files st (settings_json env) = Fails ENOENT).
Proof.
  intros Hnone Hfirst. split.
  - intros data Hfile Hparse.
    assert (Hload : loadFromDisk env st = Ok (defaultSettings, save env defaultSettings st)).
    { unfold loadFromDisk, readFileSync. rewrite Hfile. cbn [bind].
      now rewrite Hparse. }
    unfold load. rewrite Hnone, Hload. cbn [fst snd].
    split; [reflexivity|]. split; [reflexivity|].
    split; [apply saveCalls_save|]. split.
    + intros Hw. unfold save. rewrite Hw. cbn [set_settings files].
      now rewrite String.eqb_refl.
    + unfold firstRunDialogNeeded. cbn [set_settings _isFirstRun].
      now rewrite isFirstRun_save.
  - unfold firstRunDialogNeeded, load. rewrite Hnone.
    destruct (loadFromDisk env st) as [[cfg st']|e] eqn:E.
    + apply loadFromDisk_ok in E. destruct E as [[data Hfile] Hsame].
      cbn [snd set_settings _isFirstRun]. rewrite Hsame, Hfirst, Hfile.
      split; discriminate.
    + cbn [snd]. rewrite isFirstRun_save. cbn [set_settings _isFirstRun].
      apply loadFromDisk_throw in E.
      destruct E as [(code & Hfile & ->) | (data & Hfile & Hlang)]; rewrite Hfile.
      * destruct code; cbn [set_isFirstRun _isFirstRun]; rewrite ?Hfirst;
          split; congruence.
      * destruct e; try contradiction; cbn [_isFirstRun]; rewrite Hfirst;
          split; discriminate.
Qed.

Lemma load_decode_failure_and_first_run_witness :
  fst (@load (example_host []) (example_env linux) empty_settings_file)
  = @defaultSettings (example_host [])
  /\ firstRunDialogNeeded
       (snd (@load (example_host []) (example_env linux) empty_settings_file))
     = false.
Proof.
  destruct (load_decode_failure_and_first_run (example_host [])
              (example_env linux) empty_settings_file eq_refl eq_refl)
    as [H _].
  destruct (H "" eq_refl eq_refl) as (H1 & _ & _ & _ & H5).
  exact (conj H1 H5).
Defined.

(** ** Deployment profiles *)

Section Profiles.
Context {host : Host}.
Variable env : Env.

(** On the file-based platforms nothing read from the profile files
    reaches the result. *)
Lemma readDeploymentProfiles_files_empty fs p :
  platform env = linux \/ platform env = darwin ->
  readDeploymentProfiles env fs = Ok p ->
  p = {| defaults := obj []; locked := obj [] |}.
Proof.
  intros Hp H. unfold readDeploymentProfiles in H.
  destruct Hp as [Hp | Hp]; rewrite Hp in H; inv_bind H; inv_bind E;
    apply Ok_inj in E; subst x; cbn in H; now apply Ok_inj in H.
Qed.

(** A locked profile file that is present in the first directory and
    does not parse makes [readDeploymentProfiles] throw on the
    file-based platforms. *)
Lemma readDeploymentProfiles_malformed_locked_file fs data :
  (platform env = linux
   /\ fs (join (paths_deploymentProfileSystem env) "locked.json") = File data
   /\ JSON_parse data = None)
  \/ (platform env = darwin
      /\ fs (join (paths_deploymentProfileSystem env)
               "io.rancherdesktop.profile.locked.plist") = File data
      /\ plist_parse data = None) ->
  readDeploymentProfiles env fs = Throw (Error ErrorParsingLocked).
Proof.
  intros [(Hp & Hf & Hparse) | (Hp & Hf & Hparse)];
    unfold readDeploymentProfiles; rewrite Hp;
    cbn [scanRoots]; unfold readProfileFiles at 1;
    unfold readFileSync; rewrite Hf, Hparse; reflexivity.
Qed.

(** The array test of [validateKey] never holds: its operand is a
    boolean. *)
Lemma validateKey_array_test member schemaValue :
  isArray (VBool (strict_ne_bool member (isArray schemaValue))) = false.
Proof. reflexivity. Qed.

End Profiles.

(** [C1] fails on Linux: the system directory holds only a locked
    profile and the user directory only a defaults profile; the file
    reader finds the locked profile, yet [readDeploymentProfiles]
    returns an empty locked object. *)
Theorem linux_locked_profile_is_dropped :
  @readProfileFiles profile_files "/etc/rancher-desktop" "defaults.json"
    "locked.json" (@JSON_parse profile_host)
  = Ok {| defaults := VUndef; locked := locked_profile |}
  /\ @readDeploymentProfiles profile_host (example_env linux) profile_files
     = Ok {| defaults := obj []; locked := obj [] |}.
Proof. split; reflexivity. Qed.

(** On Windows the same locked profile, read from the machine hive, is
    returned. *)
Lemma win32_locked_profile_is_returned :
  @readDeploymentProfiles profile_host (registry_env locked_registry_key) no_files
  = Ok {| defaults := obj []; locked := locked_profile |}.
Proof. reflexivity. Qed.

(** [C2] fails on Windows: the locked profile in the machine hive cannot
    be read, the exception is caught, and [readDeploymentProfiles]
    returns empty profiles instead of raising. *)
Theorem win32_locked_profile_error_is_swallowed :
  @readRegistryUsingSchema (@defaultSettings profile_host) broken_locked_key ["Locked"]
  = Throw RegistryError
  /\ @readDeploymentProfiles profile_host (registry_env broken_locked_key) no_files
     = Ok {| defaults := obj []; locked := obj [] |}.
Proof. split; reflexivity. Qed.

(** [C5] fails: where the profile holds an array and the schema an
    object, or the profile an object and the schema an array, the key
    is kept. *)
Theorem validate_keeps_array_object_confusion :
  @validateDeploymentProfile
    (obj [("WSL", VObj (Array 1) [("0", VStr "x")])])
    (@defaultSettings profile_host)
  = Ok (obj [("WSL", VObj (Array 1) [("0", VStr "x")])])
  /\ @validateDeploymentProfile
       (obj [("containerEngine",
              obj [("imageAllowList", obj [("patterns", obj [("a", VNum 1)])])])])
       (@defaultSettings profile_host)
     = Ok (obj [("containerEngine",
                 obj [("imageAllowList", obj [("patterns", obj [])])])]).
Proof. split; reflexivity. Qed.

(** [C6] fails: a [null] member where the schema has an object makes
    the validation throw, and an array where the schema has an object is
    returned with members the schema does not have. *)
Theorem validate_throws_on_null_member :
  @validateDeploymentProfile (obj [("kubernetes", VNull)])
    (@defaultSettings profile_host)
  = Throw TypeError
  /\ @validateDeploymentProfile
       (obj [("kubernetes", VObj (Array 1) [("0", obj [("bogus", VNum 1)])])])
       (@defaultSettings profile_host)
     = Ok (obj [("kubernetes", VObj (Array 1) [("0", obj [("bogus", VNum 1)])])]).
Proof. split; reflexivity. Qed.

(** ** The settings store *)

Section LoadProperties.
Context {host : Host}.
Variable env : Env.

Lemma settings_save cfg st : settings (save env cfg st) = settings st.
Proof. unfold save. now destruct (writeFault st). Qed.

(** What [load] does when [loadFromDisk] throws. *)
Lemma load_fallback st err :
  settings st = None ->
  loadFromDisk env st = Throw err ->
  load env st =
  (fallbackSettings env (is_enoent err),
   save env (fallbackSettings env (is_enoent err))
     (set_settings (fallbackSettings env (is_enoent err))
        (if is_enoent err then set_isFirstRun true st else st))).
Proof.
  intros Hnone Hthrow. unfold load. rewrite Hnone, Hthrow.
  reflexivity.
Qed.

(** After [load] the module variable [settings] holds what [load]
    returned. *)
Lemma load_caches st : settings (snd (load env st)) = Some (fst (load env st)).
Proof.
  unfold load. destruct (settings st) as [s|] eqn:Hs; [exact Hs|].
  destruct (loadFromDisk env st) as [[cfg st']|err]; cbn [fst snd].
  - reflexivity.
  - now rewrite settings_save.
Qed.

(** [X1] [load] is memoized: a second call returns the same settings and
    leaves the state, the file system included, as the first call left
    it. *)
Theorem load_memoized st :
  load env (snd (load env st)) = load env st.
Proof.
  pose proof (load_caches st) as Hc.
  destruct (load env st) as [s st'] eqn:E. cbn [fst snd] in *.
  unfold load. now rewrite Hc.
Qed.

End LoadProperties.

Section FallbackProperties.
Context {host : Host}.
Variable env : Env.

Lemma readFileSync_missing st :
  files st (settings_json env) = Fails ENOENT ->
  loadFromDisk env st = Throw (SystemError ENOENT).
Proof.
  intros H. unfold loadFromDisk, readFileSync. now rewrite H.
Qed.

Lemma initialMemoryInGB_bounds :
  (0 <= totalmem env)%Z ->
  (0 <= initialMemoryInGB env <= 6)%Z
  /\ (22 * 2 ^ 30 <= totalmem env -> initialMemoryInGB env = 6)%Z.
Proof.
  intros H. unfold initialMemoryInGB.
  change (2 ^ 31)%Z with 2147483648%Z.
  change (2 ^ 32)%Z with 4294967296%Z.
  change (2 ^ 30)%Z with 1073741824%Z.
  assert (H0 : (0 <= (totalmem env + 2147483648) / 4294967296)%Z)
    by (apply Z.div_pos; lia).
  split; [lia|].
  intros H22.
  assert (H6 : (6 <= (totalmem env + 2147483648) / 4294967296)%Z)
    by (apply Z.div_le_lower_bound; lia).
  lia.
Qed.

Lemma fallback_memory b :
  get (get (fallbackSettings env b) "virtualMachine") "memoryInGB" =
  VNum (if b then match platform env with
                  | linux | darwin => initialMemoryInGB env
                  | _ => 2%Z
                  end
        else 2%Z).
Proof.
  unfold fallbackSettings.
  destruct b, (platform env), (APPIMAGE env),
    (includes "-" (productionVersion env)),
    (includes "?" (productionVersion env)); reflexivity.
Qed.


Lemma fallback_engine b : engine_recognized (fallbackSettings env b) = true.
Proof.
  unfold fallbackSettings, engine_recognized.
  destruct b, (platform env), (APPIMAGE env),
    (includes "-" (productionVersion env)),
    (includes "?" (productionVersion env)); reflexivity.
Qed.

Lemma fallback_version b :
  get (fallbackSettings env b) "version" = VNum CURRENT_SETTINGS_VERSION.
Proof.
  unfold fallbackSettings.
  destruct b, (platform env), (APPIMAGE env),
    (includes "-" (productionVersion env)),
    (includes "?" (productionVersion env)); reflexivity.
Qed.

(** [X2] When the settings file is absent on Linux or macOS, [load] sizes
    the virtual machine from the host memory: a quarter of it, rounded,
    never more than 6 GB (and 6 GB from 22 GiB of host memory on), and
    saves the settings it returns. *)
Theorem load_first_run_memory st :
  settings st = None ->
  files st (settings_json env) = Fails ENOENT ->
  platform env = linux \/ platform env = darwin ->
  (0 <= totalmem env)%Z ->
  exists m,
    get (get (fst (load env st)) "virtualMachine") "memoryInGB" = VNum m
    /\ (0 <= m <= 6)%Z
    /\ (22 * 2 ^ 30 <= totalmem env -> m = 6)%Z
    /\ saveCalls (snd (load env st)) = fst (load env st) :: saveCalls st.
Proof.
  intros Hnone Hfile Hp Hmem.
  rewrite (load_fallback env st _ Hnone (readFileSync_missing st Hfile)).
  cbn [fst snd is_enoent]. rewrite fallback_memory, saveCalls_save.
  exists (initialMemoryInGB env).
  destruct (initialMemoryInGB_bounds Hmem) as [Hb H22].
  repeat split; try tauto.
  now destruct Hp as [-> | ->].
Qed.


End FallbackProperties.

Lemma load_first_run_memory_witness :
  exists m,
    get (get (fst (@load (example_host []) (example_env linux)
                     (initial_state no_files))) "virtualMachine") "memoryInGB"
    = VNum m
    /\ (0 <= m <= 6)%Z
    /\ (22 * 2 ^ 30 <= totalmem (example_env linux) -> m = 6)%Z
    /\ saveCalls (snd (@load (example_host []) (example_env linux)
                         (initial_state no_files)))
       = fst (@load (example_host []) (example_env linux) (initial_state no_files))
           :: saveCalls (initial_state no_files).
Proof.
  apply (@load_first_run_memory (example_host []) (example_env linux)
           (initial_state no_files)).
  - reflexivity.
  - reflexivity.
  - left; reflexivity.
  - vm_compute; discriminate.
Defined.


(** ** What a migration leaves behind *)

Lemma covers_obj kind props o :
  covers (VObj kind props) o <->
  Forall (fun kv =>
            get o (fst kv) <> VUndef
            /\ (isObject (snd kv) = true -> isObject (get o (fst kv)) = true ->
                covers (snd kv) (get o (fst kv)))) props.
Proof.
  cbn [covers]. induction props as [|[k sv] l IH].
  - split; [constructor | trivial].
  - split.
    + intros [H1 H2]. constructor; [exact H1 | now apply IH].
    + intros H. inversion H; subst. split; [assumption | now apply IH].
Qed.

Lemma source_ok_members kind l :
  source_ok (VObj kind l) = true ->
  Forall (fun kv => source_ok (snd kv) = true) l.
Proof.
  induction l as [|[k v] l IH]; intros H; constructor.
  - now apply source_ok_inv in H.
  - apply IH. now apply source_ok_inv in H.
Qed.

Lemma defined_source_members kind l :
  defined_source (VObj kind l) = true ->
  Forall (fun kv => snd kv <> VUndef /\ defined_source (snd kv) = true) l.
Proof.
  induction l as [|[k v] l IH]; cbn [defined_source]; intros H; constructor.
  - apply andb_true_iff in H. destruct H as [H _]. split; [|exact H].
    cbn [snd]. intros ->. discriminate.
  - apply IH. cbn [defined_source].
    apply andb_true_iff in H. now destruct H.
Qed.

(** A settled source property has a value in the object. *)
Lemma settled_lookup m kind props k sv :
  k <> "length" -> sv <> VUndef ->
  (forall x, isObject (m x) = isObject x) ->
  mergeEntry m (VObj kind props) k sv = VObj kind props ->
  exists ov, lookup k props = Some ov /\ ov <> VUndef
             /\ (isObject sv = true -> isObject ov = true -> ov = m ov).
Proof.
  intros Hk Hsv Hobj H. rewrite mergeEntry_object in H by assumption.
  destruct (pending m props k sv) as [w|] eqn:Hp.
  - assert (Hset : assoc_set k w props = props) by congruence.
    apply assoc_set_fixed in Hset.
    unfold pending in Hp. rewrite Hset in Hp.
    exists w. split; [exact Hset|].
    destruct (isObject sv) eqn:Eo.
    + destruct (isObject w) eqn:Ew.
      * split; [now destruct w | intros _ _; congruence].
      * exfalso. destruct w; try discriminate.
        assert (Hm : isObject (m (emptyLike sv)) = true)
          by now rewrite Hobj, emptyLike_isObject.
        assert (Hu : m (emptyLike sv) = VUndef) by congruence.
        rewrite Hu in Hm. discriminate.
    + exfalso. destruct w; try discriminate.
      destruct sv; discriminate.
  - unfold pending in Hp.
    destruct (lookup k props) as [ov|].
    + exists ov. split; [reflexivity|].
      destruct (isObject sv) eqn:Eo.
      * destruct (isObject ov) eqn:Ev; [discriminate|].
        split; [now destruct ov | discriminate].
      * split; [|discriminate].
        destruct ov; try discriminate. now destruct sv.
    + now destruct (isObject sv).
Qed.

(** After [defaultsDeep], the object covers the defaults. *)
Lemma baseMerge_covers s :
  source_ok s = true -> defined_source s = true ->
  forall o, isObject o = true -> covers s (baseMerge s o).
Proof.
  induction s as [| | | | |kind sprops IH] using value_ind; try (intros; exact I).
  intros Hok Hdef o Ho. rewrite baseMerge_props.
  pose proof (mergeProps_isObject sprops o) as HR. rewrite Ho in HR.
  assert (Hidem : Forall (fun kv => forall x,
                            baseMerge (snd kv) (baseMerge (snd kv) x)
                            = baseMerge (snd kv) x) sprops).
  { pose proof (source_ok_members _ _ Hok) as Hm.
    rewrite Forall_forall in *. intros kv Hin x.
    apply baseMerge_idem. now apply Hm. }
  pose proof (mergeProps_idem kind sprops Hok Hidem o) as Hsettled.
  destruct (mergeProps sprops o) as [| | | | |kR pR]; try discriminate.
  apply covers_obj.
  pose proof (source_ok_keys _ _ Hok) as Hkeys.
  pose proof (source_ok_members _ _ Hok) as Hoks.
  pose proof (defined_source_members _ _ Hdef) as Hdefs.
  rewrite Forall_forall in *. intros [k sv] Hin. cbn [fst snd].
  specialize (Hsettled _ Hin). specialize (Hkeys _ Hin).
  specialize (Hoks _ Hin). specialize (Hdefs _ Hin). specialize (IH _ Hin).
  cbn [fst snd] in *. destruct Hdefs as [Hsv Hdsv].
  destruct (settled_lookup _ _ _ _ _ Hkeys Hsv
              (baseMerge_isObject sv) Hsettled) as (ov & Hl & Hov & Hfix).
  rewrite get_field by assumption. unfold field. rewrite Hl.
  split; [assumption|].
  intros Hsvo Hovo. rewrite (Hfix Hsvo Hovo). now apply IH.
Qed.

Section MigrationOutcome.
Context {host : Host}.

Lemma defaultSettings_defined : defined_source defaultSettings = true.
Proof. reflexivity. Qed.

(** The two shapes of a migration outcome. *)
Lemma updateSettings_shape r m :
  updateSettings r = Ok m ->
  m = defaultSettings
  \/ exists kind props,
       lookup "version" props = Some (VNum CURRENT_SETTINGS_VERSION)
       /\ m = defaultsDeep (VObj kind props) defaultSettings.
Proof.
  intros E. unfold updateSettings in E.
  inv_bind E. case_if.
  - left. now apply Ok_inj in E.
  - right. inv_bind E. inv_bind E. inv_bind E. apply Ok_inj in E. subst m.
    match goal with H : setprop _ "version" _ = Ok _ |- _ => rename H into Hset end.
    pose proof (setprop_isObject _ _ _ _ Hset) as [Ho _].
    match type of Ho with
    | isObject ?s = true => destruct s as [| | | | |kind props]; try discriminate
    end.
    rewrite setprop_grow in Hset by discriminate. apply Ok_inj in Hset. subst.
    eexists; eexists. split; [|reflexivity]. apply lookup_assoc_set_same.
Qed.

Lemma updateSettings_stable r m :
  updateSettings r = Ok m -> updateSettings m = Ok m.
Proof.
  intros H. apply updateSettings_shape in H.
  destruct H as [-> | (kind & props & Hv & ->)].
  - apply updateSettings_defaultSettings.
  - destruct (defaultsDeep_keeps_version kind props Hv)
      as (kind' & props' & Heq & Hv').
    rewrite Heq. apply updateSettings_current; [assumption|].
    rewrite <- Heq. apply defaultsDeep_idem.
Qed.

Lemma updateSettings_isObject r m :
  updateSettings r = Ok m -> isObject m = true.
Proof.
  intros H. apply updateSettings_shape in H.
  destruct H as [-> | (kind & props & _ & ->)]; [reflexivity|].
  unfold defaultsDeep. now rewrite baseMerge_isObject.
Qed.

(** [X4] Whatever the raw settings were, a migration that returns yields
    settings at the current version in which every member of the
    compiled-in defaults has a value, also within nested sections. *)
Theorem updateSettings_covers_defaults r m :
  updateSettings r = Ok m ->
  get m "version" = VNum CURRENT_SETTINGS_VERSION
  /\ covers defaultSettings m.
Proof.
  intros H. apply updateSettings_shape in H.
  destruct H as [-> | (kind & props & Hv & ->)].
  - split; [reflexivity|].
    change (covers defaultSettings (baseMerge defaultSettings defaultSettings)).
    apply baseMerge_covers;
      [apply defaultSettings_source_ok | apply defaultSettings_defined | reflexivity].
  - split.
    + destruct (defaultsDeep_keeps_version kind props Hv)
        as (kind' & props' & -> & Hv').
      rewrite get_field by discriminate. unfold field. now rewrite Hv'.
    + apply baseMerge_covers;
        [apply defaultSettings_source_ok | apply defaultSettings_defined
        | reflexivity].
Qed.

End MigrationOutcome.

Lemma updateSettings_covers_defaults_witness :
  get (@defaultsDeep
         (obj [("version", VNum 5); ("autoStart", VBool true)])
         (@defaultSettings (example_host []))) "version"
  = VNum CURRENT_SETTINGS_VERSION
  /\ covers (@defaultSettings (example_host []))
       (@defaultsDeep
          (obj [("version", VNum 5); ("autoStart", VBool true)])
          (@defaultSettings (example_host []))).
Proof.
  apply (@updateSettings_covers_defaults (example_host [])
           (obj [("version", VNum 5); ("autoStart", VBool true)])).
  reflexivity.
Defined.

(** ** Loading what was saved *)

Lemma getprop_Ok o k v : getprop o k = Ok v -> nullish o = false /\ v = get o k.
Proof.
  unfold getprop. destruct (nullish o); [discriminate|].
  intros H. apply Ok_inj in H. auto.
Qed.

Lemma get2_Ok s a b v :
  get2 s a b = Ok v ->
  nullish s = false /\ nullish (get s a) = false /\ v = get (get s a) b.
Proof.
  unfold get2. intros H. inv_bind H.
  apply getprop_Ok in E. destruct E as [Hs ->].
  apply getprop_Ok in H. destruct H as [Ha ->]. auto.
Qed.

Lemma get_nullish o k : nullish o = true -> get o k = VUndef.
Proof. now destruct o. Qed.

Lemma engine_recognized_base cfg :
  engine_recognized cfg = true -> nullish (get cfg "containerEngine") = false.
Proof.
  unfold engine_recognized. intros H.
  destruct (nullish (get cfg "containerEngine")) eqn:E; [|reflexivity].
  rewrite (get_nullish _ "name" E) in H. discriminate.
Qed.

Section LoadOutcome.
Context {host : Host}.
Variable env : Env.

(** [loadFromDisk] returns settings with a recognized engine name. *)
Lemma loadFromDisk_engine st cfg st' :
  loadFromDisk env st = Ok (cfg, st') -> engine_recognized cfg = true.
Proof.
  intros H. unfold loadFromDisk in H. inv_bind H.
  destruct (JSON_parse x) as [parsed|].
  - inv_bind H. inv_bind H.
    match goal with
    | Hu : updateSettings _ = Ok ?c |- _ =>
        pose proof (updateSettings_isObject _ _ Hu) as Hobj
    end.
    match goal with
    | Hg : get2 _ _ _ = Ok _ |- _ => apply get2_Ok in Hg; destruct Hg as (_ & _ & ->)
    end.
    case_if.
    + inv_bind H. inv_bind H. apply Ok_inj in H.
      injection H as <- _.
      match goal with
      | Hs : setprop _ "name" _ = Ok ?c |- _ =>
          pose proof (setprop_isObject _ _ _ _ Hs) as [_ Hc];
          pose proof (get_setprop_same _ _ _ _ Hs) as Hn
      end.
      unfold engine_recognized.
      rewrite get_store_same by (assumption || discriminate).
      rewrite Hn by discriminate. reflexivity.
    + match goal with
      | Hneg : negb _ = false |- _ => apply negb_false_iff in Hneg; rename Hneg into Hrec
      end.
      case_if; apply Ok_inj in H; injection H as <- _; exact Hrec.
  - apply Ok_inj in H. injection H as <- _. reflexivity.
Qed.

(** [X5] Whatever the settings file holds, the settings a first [load]
    returns name a container engine the program knows: an unknown name
    is replaced by [containerd]. *)
Theorem load_engine_recognized st :
  settings st = None -> engine_recognized (fst (load env st)) = true.
Proof.
  intros Hnone.
  destruct (loadFromDisk env st) as [[cfg st']|err] eqn:E.
  - unfold load. rewrite Hnone, E. cbn [fst].
    now apply loadFromDisk_engine in E.
  - rewrite (load_fallback env st err Hnone E). cbn [fst].
    apply fallback_engine.
Qed.

(** [X6] Settings that came out of a migration and name a known engine are
    read back by a fresh process as they were saved, provided the
    decoder inverts the encoder on them. *)
Theorem save_then_load st r cfg :
  settings st = None ->
  writeFault st = None ->
  updateSettings r = Ok cfg ->
  engine_recognized cfg = true ->
  JSON_parse (JSON_stringify cfg) = Some cfg ->
  fst (load env (save env cfg st)) = cfg.
Proof.
  intros Hnone Hw Hmig Hrec Hrt.
  pose proof (updateSettings_stable _ _ Hmig) as Hstable.
  pose proof (updateSettings_isObject _ _ Hmig) as Hobj.
  pose proof (engine_recognized_base _ Hrec) as Hce.
  unfold load. rewrite settings_save, Hnone.
  unfold loadFromDisk, readFileSync.
  assert (Hfile : files (save env cfg st) (settings_json env)
                  = File (JSON_stringify cfg)).
  { unfold save. rewrite Hw. cbn [files]. now rewrite String.eqb_refl. }
  rewrite Hfile. cbn [bind]. rewrite Hrt. unfold clone.
  rewrite Hstable. cbn [bind].
  rewrite get2_ok by (assumption || now apply isObject_not_nullish).
  cbn [bind]. unfold engine_recognized in Hrec. rewrite Hrec.
  cbn [negb]. now destruct (negb (isEqual cfg cfg)).
Qed.

End LoadOutcome.

Lemma load_engine_recognized_witness :
  engine_recognized
    (fst (@load (example_host []) (example_env linux) (initial_state no_files)))
  = true.
Proof.
  apply (@load_engine_recognized (example_host []) (example_env linux)
           (initial_state no_files)).
  reflexivity.
Defined.

Lemma save_then_load_witness :
  fst (@load roundtrip_host (example_env linux)
         (@save roundtrip_host (example_env linux) (@defaultSettings roundtrip_host)
            (initial_state no_files)))
  = @defaultSettings roundtrip_host.
Proof.
  apply (@save_then_load roundtrip_host (example_env linux)
           (initial_state no_files) (@defaultSettings roundtrip_host)).
  - reflexivity.
  - reflexivity.
  - reflexivity.
  - reflexivity.
  - reflexivity.
Defined.

(** ** The migration steps, member by member *)

Lemma own_remove_key_same o k : k <> "length" -> own (remove_key o k) k = false.
Proof.
  intros Hk. destruct o as [| | | | |kind props]; try reflexivity.
  unfold remove_key, own, mem. rewrite lookup_remove_same.
  destruct kind; [reflexivity|].
  now rewrite (eqb_sym_false k "length").
Qed.

Lemma own_remove_key_other o k k' :
  k' <> k -> own (remove_key o k) k' = own o k'.
Proof.
  intros Hne. destruct o as [| | | | |kind props]; try reflexivity.
  unfold remove_key, own, mem. now rewrite lookup_remove_other.
Qed.

Lemma setprop_frame s k v :
  isObject s = true -> k <> "length" ->
  exists s',
    setprop s k v = Ok s' /\ isObject s' = true /\ get s' k = v
    /\ (forall k', k' <> k -> k' <> "length" -> get s' k' = get s k').
Proof.
  intros Hs Hk. rewrite setprop_ok by assumption.
  eexists; split; [reflexivity|].
  split; [now rewrite assignValue_isObject|].
  split; [now apply get_assignValue_same|].
  intros k' Hne Hk'. now apply get_assignValue_other.
Qed.

Lemma store_frame s k child :
  isObject s = true -> isObject child = true -> k <> "length" ->
  isObject (store s k child) = true /\ get (store s k child) k = child
  /\ (forall k', k' <> k -> k' <> "length" ->
                 get (store s k child) k' = get s k').
Proof.
  intros Hs Hc Hk. split; [now rewrite store_isObject|].
  split; [now apply get_store_same|].
  intros k' Hne Hk'. now apply get_store_other.
Qed.

Lemma delete2_frame s a b :
  isObject s = true -> isObject (get s a) = true ->
  a <> "length" -> b <> "length" ->
  exists s',
    delete2 s a b = Ok s' /\ isObject s' = true
    /\ get s' a = remove_key (get s a) b
    /\ (forall k', k' <> a -> k' <> "length" -> get s' k' = get s k').
Proof.
  intros Hs Ha Hna Hb. rewrite delete2_ok by assumption.
  eexists; split; [reflexivity|].
  destruct (store_frame s a (remove_key (get s a) b)) as (H1 & H2 & H3);
    try assumption; [now rewrite isObject_remove_key|].
  auto.
Qed.

Lemma delprop_frame s k :
  isObject s = true -> k <> "length" ->
  exists s',
    delprop s k = Ok s' /\ isObject s' = true /\ own s' k = false
    /\ (forall k', k' <> k -> k' <> "length" -> get s' k' = get s k')
    /\ (forall k', k' <> k -> own s' k' = own s k').
Proof.
  intros Hs Hk. rewrite delprop_ok by assumption.
  eexists; split; [reflexivity|].
  split; [now rewrite isObject_remove_key|].
  split; [now apply own_remove_key_same|].
  split.
  - intros k' Hne Hk'. now apply get_remove_key_other.
  - intros k' Hne. now apply own_remove_key_other.
Qed.

(** Restates what is known of the members of [old] for [new], using the
    frame condition [F] of the operation that led from one to the
    other. *)
Ltac carry_get old new F :=
  repeat match goal with
         | H : get old ?k = ?v |- _ =>
             first [ assert (get new k = v)
                       by (rewrite F by discriminate; exact H)
                   | idtac ];
             clear H
         end.

Ltac carry_own old new F :=
  repeat match goal with
         | H : own old ?k = false |- _ =>
             first [ assert (own new k = false)
                       by (rewrite F by discriminate; exact H)
                   | idtac ];
             clear H
         end.

Lemma remove_key_get o b k :
  k <> b -> k <> "length" -> get (remove_key o b) k = get o k.
Proof. intros. now apply get_remove_key_other. Qed.

Ltac read_side :=
  lazymatch goal with
  | |- nullish (get (get ?s ?a) ?b) = false =>
      match goal with H : get s a = _ |- _ => rewrite H end; assumption
  | |- nullish (get ?s ?a) = false =>
      match goal with H : get s a = _ |- _ => rewrite H end;
      apply isObject_not_nullish; assumption
  | |- nullish ?s = false => apply isObject_not_nullish; assumption
  end.

Ltac read_members :=
  repeat first
    [ rewrite get3_ok by read_side
    | rewrite get2_ok by read_side
    | rewrite getprop_ok by read_side ];
  cbn [bind];
  repeat match goal with
         | H : get ?s ?a = _ |- context [get ?s ?a] => rewrite H
         end.

Ltac assign_member old :=
  lazymatch goal with
  | |- context [bind (setprop old ?k ?v)] =>
      let s' := fresh "s" in
      let E := fresh "E" in
      let F := fresh "F" in
      let Hobj := fresh "Hobj" in
      let Hnew := fresh "Hnew" in
      destruct (setprop_frame old k v) as (s' & E & Hobj & Hnew & F);
      [assumption | discriminate |];
      rewrite E; clear E; cbn [bind];
      carry_get old s' F; clear F
  end.

Ltac delete_member old :=
  lazymatch goal with
  | |- context [delete2 old ?a ?b] =>
      let s' := fresh "s" in
      let E := fresh "E" in
      let F := fresh "F" in
      let Hobj := fresh "Hobj" in
      let Hnew := fresh "Hnew" in
      destruct (delete2_frame old a b) as (s' & E & Hobj & Hnew & F);
      [ assumption
      | match goal with H : get old a = _ |- _ => rewrite H end;
        rewrite ?isObject_remove_key; assumption
      | discriminate | discriminate |];
      rewrite E; clear E; cbn [bind];
      match goal with H : get old a = _ |- _ => rewrite H in Hnew end;
      carry_get old s' F; clear F
  end.

Ltac delete_top old :=
  lazymatch goal with
  | |- context [delprop old ?k] =>
      let s' := fresh "s" in
      let E := fresh "E" in
      let F := fresh "F" in
      let G := fresh "G" in
      let Hobj := fresh "Hobj" in
      let Hnew := fresh "Hnew" in
      destruct (delprop_frame old k) as (s' & E & Hobj & Hnew & F & G);
      [assumption | discriminate |];
      rewrite E; clear E; cbn [bind];
      carry_get old s' F; carry_own old s' G; clear F G
  end.

(** [X7] The step for version 4 moves the older members to their new places:
    the engine name, the administrative access, the virtual machine
    sizes, the experimental and WSL members come from [kubernetes], whose
    moved members are deleted, as are the top-level [debug],
    [pathManagementStrategy], [telemetry] and [updater]. *)
Theorem update4_moves_members (s : value) :
  migratable s ->
  exists s',
    update4 s = Ok s'
    /\ get (get s' "containerEngine") "name"
       = get (get s "kubernetes") "containerEngine"
    /\ get s' "application"
       = obj [("adminAccess",
               VBool (negb (truthy (get (get s "kubernetes") "suppressSudo"))));
              ("debug", get s "debug");
              ("pathManagementStrategy", get s "pathManagementStrategy");
              ("telemetry", obj [("enabled", get s "telemetry")]);
              ("updater", obj [("enabled", get s "updater")])]
    /\ get s' "virtualMachine"
       = obj [("hostResolver", get (get s "kubernetes") "hostResolver");
              ("memoryInGB", get (get s "kubernetes") "memoryInGB");
              ("numberCPUs", get (get s "kubernetes") "numberCPUs")]
    /\ get s' "experimental"
       = obj [("virtualMachine",
               obj [("socketVMNet",
                     get (get (get s "kubernetes") "experimental") "socketVMNet")])]
    /\ get s' "WSL"
       = obj [("integrations", get (get s "kubernetes") "WSLIntegrations")]
    /\ Forall (fun member => own (get s' "kubernetes") member = false)
         ["containerEngine"; "experimental"; "hostResolver";
          "checkForExistingKimBuilder"; "memoryInGB"; "numberCPUs";
          "suppressSudo"; "WSLIntegrations"]
    /\ Forall (fun member => own s' member = false)
         ["debug"; "pathManagementStrategy"; "telemetry"; "updater"].
Proof.
  intros (Hs & Hk & He & Hc). unfold update4.
  remember (get s "kubernetes") as K eqn:HK. symmetry in HK.
  remember (get s "containerEngine") as CE eqn:HCE. symmetry in HCE.
  remember (get s "debug") as vdebug eqn:Hdebug. symmetry in Hdebug.
  remember (get s "pathManagementStrategy") as vpms eqn:Hpms. symmetry in Hpms.
  remember (get s "telemetry") as vtel eqn:Htel. symmetry in Htel.
  remember (get s "updater") as vupd eqn:Hupd. symmetry in Hupd.
  read_members. assign_member s.
  read_members. assign_member s0.
  read_members. assign_member s1.
  read_members. assign_member s2.
  read_members.
  destruct (setprop_frame CE "name" (get K "containerEngine"))
    as (ce & E & Hce & Hname & _); [assumption | discriminate |].
  rewrite E; clear E; cbn [bind].
  destruct (store_frame s3 "containerEngine" ce) as (Hobj4 & Hce4 & F4);
    [assumption | assumption | discriminate |].
  remember (store s3 "containerEngine" ce) as s4 eqn:Hs4. clear Hs4.
  carry_get s3 s4 F4; clear F4.
  delete_member s4. delete_member s5. delete_member s6. delete_member s7.
  delete_member s8. delete_member s9. delete_member s10. delete_member s11.
  delete_top s12. delete_top s13. delete_top s14. delete_top s15.
  eexists. split; [reflexivity|].
  repeat match goal with
         | H : get s16 ?a = _ |- _ => rewrite H; clear H
         end.
  repeat split; try assumption; try reflexivity.
  - repeat constructor;
      repeat (rewrite own_remove_key_other by discriminate);
      apply own_remove_key_same; discriminate.
  - repeat constructor; assumption.
Qed.

Lemma update4_moves_members_witness :
  exists s',
    update4 settings_v4 = Ok s'
    /\ get (get s' "containerEngine") "name" = VStr "moby"
    /\ get (get s' "application") "adminAccess" = VBool false
    /\ own (get s' "kubernetes") "containerEngine" = false
    /\ own (get s' "kubernetes") "suppressSudo" = false.
Proof.
  destruct (update4_moves_members settings_v4) as
    (s' & E & Hname & Happ & _ & _ & _ & Hk & _).
  - repeat split; reflexivity.
  - exists s'. split; [exact E|].
    split; [exact Hname|].
    split; [now rewrite Happ|].
    inversion Hk as [|? ? H1 Hk1]; subst.
    repeat (match goal with H : Forall _ (_ :: _) |- _ =>
                              inversion H; clear H; subst end).
    auto.
Defined.

Lemma string_entries_values k v s :
  forall i, lookup k (string_entries i s) = Some v -> isObject v = false.
Proof.
  induction s as [|c s IH]; intros i; simpl; [discriminate|].
  destruct (k =? string_of_N i).
  - now intros [= <-].
  - apply IH.
Qed.

(** Only an object has members that are objects. *)
Lemma get_object_base o k : isObject (get o k) = true -> isObject o = true.
Proof.
  destruct o as [| | | | s |kind props]; try discriminate; [|reflexivity].
  unfold get. destruct (k =? "length"); [discriminate|].
  destruct (lookup k (string_entries 0 s)) eqn:E; [|discriminate].
  apply string_entries_values in E. congruence.
Qed.

(** [X8] The step for version 1 removes [kubernetes.rancherMode] and nothing
    else. *)
Theorem update1_removes_rancherMode (s s' : value) :
  update1 s = Ok s' ->
  own (get s' "kubernetes") "rancherMode" = false
  /\ (forall k, k <> "rancherMode" -> k <> "length" ->
                get (get s' "kubernetes") k = get (get s "kubernetes") k)
  /\ (forall k, k <> "kubernetes" -> k <> "length" -> get s' k = get s k).
Proof.
  intros H. unfold update1 in H. inv_bind H.
  apply getprop_Ok in E. destruct E as [_ ->].
  inv_bind H.
  assert (HK : isObject (get s "kubernetes") = true).
  { destruct (get s "kubernetes"); try discriminate. reflexivity. }
  assert (Hown : x = own (get s "kubernetes") "rancherMode").
  { destruct (get s "kubernetes"); try discriminate.
    cbn [has_in] in E. now apply Ok_inj in E. }
  pose proof (get_object_base _ _ HK) as Hs.
  destruct x.
  - rewrite delete2_ok in H by (assumption || discriminate).
    apply Ok_inj in H. subst s'.
    destruct (store_frame s "kubernetes"
                (remove_key (get s "kubernetes") "rancherMode"))
      as (_ & Hnew & F);
      [assumption | now rewrite isObject_remove_key | discriminate |].
    rewrite Hnew. split; [apply own_remove_key_same; discriminate|].
    split.
    + intros k Hk Hl. now apply get_remove_key_other.
    + exact F.
  - apply Ok_inj in H. subst s'. auto.
Qed.

Lemma update1_removes_rancherMode_witness :
  own (get (obj [("kubernetes", obj [("enabled", VBool true)])]) "kubernetes")
    "rancherMode" = false
  /\ (forall k, k <> "rancherMode" -> k <> "length" ->
        get (get (obj [("kubernetes", obj [("enabled", VBool true)])])
               "kubernetes") k
        = get (get (obj [("kubernetes",
                          obj [("rancherMode", VBool true);
                               ("enabled", VBool true)])]) "kubernetes") k)
  /\ (forall k, k <> "kubernetes" -> k <> "length" ->
        get (obj [("kubernetes", obj [("enabled", VBool true)])]) k
        = get (obj [("kubernetes",
                     obj [("rancherMode", VBool true); ("enabled", VBool true)])]) k).
Proof.
  apply (update1_removes_rancherMode
           (obj [("kubernetes",
                  obj [("rancherMode", VBool true); ("enabled", VBool true)])])).
  reflexivity.
Defined.

(** ** What [defaultsDeep] leaves alone *)

Lemma follow_undef path : follow VUndef path = VUndef.
Proof. induction path as [|k path IH]; [reflexivity | exact IH]. Qed.

Lemma baseMerge_primitive s o : isObject o = false -> baseMerge s o = o.
Proof.
  intros Ho. destruct s as [| | | | |kind l]; try reflexivity.
  rewrite baseMerge_props. unfold mergeProps.
  induction l as [|[k sv] l IH]; simpl; [reflexivity|].
  now rewrite mergeEntry_primitive.
Qed.

Lemma lookup_In k v (l : list (string * value)) :
  lookup k l = Some v -> In (k, v) l.
Proof.
  induction l as [|[k' v'] l IH]; simpl; [discriminate|].
  destruct (String.eqb_spec k k') as [->|_].
  - intros [= ->]. now left.
  - intros H. right. now apply IH.
Qed.

Lemma mergeProps_cons k sv l o :
  mergeProps ((k, sv) :: l) o = mergeProps l (mergeEntry (baseMerge sv) o k sv).
Proof. reflexivity. Qed.

(** The member of a merged object under a key. *)
Lemma mergeProps_lookup kd l :
  source_ok (VObj kd l) = true ->
  forall kind props k,
    exists kind' props',
      mergeProps l (VObj kind props) = VObj kind' props'
      /\ lookup k props' =
         match lookup k l with
         | None => lookup k props
         | Some sv =>
             match pending (baseMerge sv) props k sv with
             | Some w => Some w
             | None => lookup k props
             end
         end.
Proof.
  induction l as [|[k' sv'] l IH]; intros Hok kind props k.
  - exists kind, props. split; reflexivity.
  - apply source_ok_inv in Hok. destruct Hok as (Hk' & Hmem & _ & Hl).
    rewrite mergeProps_cons, mergeEntry_object by assumption.
    cbn [lookup].
    destruct (String.eqb_spec k k') as [->|Hne].
    + assert (Hnone : lookup k' l = None).
      { unfold mem in Hmem. now destruct (lookup k' l). }
      destruct (pending (baseMerge sv') props k' sv') as [w|].
      * destruct (IH Hl (grow kind k') (assoc_set k' w props) k')
          as (kind' & props' & -> & Hlook).
        exists kind', props'. split; [reflexivity|].
        now rewrite Hlook, Hnone, lookup_assoc_set_same.
      * destruct (IH Hl kind props k') as (kind' & props' & -> & Hlook).
        exists kind', props'. split; [reflexivity|].
        now rewrite Hlook, Hnone.
    + destruct (pending (baseMerge sv') props k' sv') as [w|].
      * destruct (IH Hl (grow kind k') (assoc_set k' w props) k)
          as (kind' & props' & -> & Hlook).
        exists kind', props'. split; [reflexivity|].
        rewrite Hlook.
        rewrite (lookup_assoc_set_other k' k w props Hne).
        destruct (lookup k l) as [sv|]; [|reflexivity].
        rewrite (pending_ext (baseMerge sv) props (assoc_set k' w props))
          by now apply lookup_assoc_set_other.
        reflexivity.
      * apply IH. assumption.
Qed.

(** A member that holds a primitive, at any depth, is the same after
    [defaultsDeep]. *)
Lemma defaultsDeep_keeps_members path :
  Forall (fun k => k <> "length") path ->
  forall d o,
    source_ok d = true ->
    isObject (follow o path) = false ->
    follow o path <> VUndef ->
    follow (baseMerge d o) path = follow o path.
Proof.
  induction 1 as [|k rest Hk _ IH]; intros d o Hok Hprim Hdef.
  - cbn [follow] in *. now rewrite baseMerge_primitive.
  - destruct (isObject o) eqn:Ho; [|now rewrite baseMerge_primitive].
    destruct d as [| | | | |kd l]; try reflexivity.
    destruct o as [| | | | |kind props]; try discriminate.
    rewrite baseMerge_props.
    destruct (mergeProps_lookup kd l Hok kind props k)
      as (kind' & props' & -> & Hlook).
    cbn [follow] in *. rewrite !get_field in * by assumption.
    unfold field in *. rewrite Hlook.
    destruct (lookup k l) as [sv|] eqn:El; [|reflexivity].
    unfold pending.
    destruct (lookup k props) as [ov|];
      [|now rewrite follow_undef in Hdef].
    assert (Hsv : source_ok sv = true).
    { pose proof (source_ok_members _ _ Hok) as Hm.
      rewrite Forall_forall in Hm. apply (Hm (k, sv)). now apply lookup_In. }
    destruct (isObject sv).
    + destruct (isObject ov) eqn:Eov; [now apply IH|].
      destruct ov; try reflexivity. now rewrite follow_undef in Hdef.
    + destruct ov; try reflexivity. now rewrite follow_undef in Hdef.
Qed.

(** [X9] Settings stored at the current version or a newer one are migrated
    without running any step: the version is set to the current one and
    every member that holds a primitive, at any depth, keeps the value
    the user gave it. *)
Theorem updateSettings_newer_keeps_members (host : Host) (r : value) (v : Z)
  (k : string) (rest : list string) :
  isObject r = true ->
  get r "version" = VNum v ->
  (CURRENT_SETTINGS_VERSION <= v)%Z ->
  k <> "version" ->
  Forall (fun k => k <> "length") (k :: rest) ->
  isObject (follow r (k :: rest)) = false ->
  follow r (k :: rest) <> VUndef ->
  exists m,
    updateSettings r = Ok m
    /\ get m "version" = VNum CURRENT_SETTINGS_VERSION
    /\ follow m (k :: rest) = follow r (k :: rest).
Proof.
  intros Hr Hver Hv Hk Hpath Hprim Hdef.
  destruct r as [| | | | |kind props]; try discriminate.
  apply get_number_lookup in Hver; [|discriminate].
  unfold updateSettings. cbn [Object_keys bind].
  destruct props as [|kv props']; [discriminate|].
  cbn [List.length map Nat.eqb].
  rewrite getprop_ok by reflexivity. cbn [bind].
  rewrite get_field by discriminate. unfold field. rewrite Hver.
  rewrite js_or_number. cbn [ToNumber].
  assert (Hlt : (v <? CURRENT_SETTINGS_VERSION)%Z = false) by now apply Z.ltb_ge.
  rewrite Hlt. cbn [bind].
  rewrite setprop_grow by discriminate. cbn [bind].
  eexists. split; [reflexivity|]. split.
  - destruct (defaultsDeep_keeps_version (grow kind "version")
                (assoc_set "version" (VNum CURRENT_SETTINGS_VERSION) (kv :: props')))
      as (k2 & p2 & -> & Hlook); [apply lookup_assoc_set_same|].
    rewrite get_field by discriminate. unfold field. now rewrite Hlook.
  - assert (Hsame :
      follow (VObj (grow kind "version")
                (assoc_set "version" (VNum CURRENT_SETTINGS_VERSION) (kv :: props')))
        (k :: rest)
      = follow (VObj kind (kv :: props')) (k :: rest)).
    { inversion Hpath; subst. cbn [follow]. rewrite !get_field by assumption.
      unfold field. now rewrite lookup_assoc_set_other. }
    unfold defaultsDeep.
    rewrite defaultsDeep_keeps_members;
      [exact Hsame | assumption | apply defaultSettings_source_ok
      | now rewrite Hsame | now rewrite Hsame].
Qed.

Lemma updateSettings_newer_keeps_members_witness :
  exists m,
    @updateSettings (example_host [])
      (obj [("version", VNum 7);
            ("virtualMachine", obj [("memoryInGB", VNum 8)])]) = Ok m
    /\ get m "version" = VNum CURRENT_SETTINGS_VERSION
    /\ follow m ["virtualMachine"; "memoryInGB"]
       = follow (obj [("version", VNum 7);
                      ("virtualMachine", obj [("memoryInGB", VNum 8)])])
           ["virtualMachine"; "memoryInGB"].
Proof.
  apply (updateSettings_newer_keeps_members (example_host [])
           (obj [("version", VNum 7);
                 ("virtualMachine", obj [("memoryInGB", VNum 8)])]) 7).
  - reflexivity.
  - reflexivity.
  - discriminate.
  - discriminate.
  - repeat constructor; discriminate.
  - reflexivity.
  - discriminate.
Defined.

(** ** Where [getUpdatableNode] can point *)







(** ** External arguments *)

Section ExternalArguments.
Context {host : Host}.
Variable env : Env.

Lemma processArguments_external all pre :
  Forall (fun arg => String.prefix "--" arg = false) pre ->
  forall rest cfg st,
    processArguments all (pre ++ rest) true cfg st
    = processArguments all rest true cfg st.
Proof.
  induction 1 as [|arg pre Harg _ IH]; intros rest cfg st; [reflexivity|].
  cbn [app processArguments]. rewrite Harg. cbn [negb]. apply IH.
Qed.

(** [X11] Arguments that do not start with [--] are skipped as long as no
    option of the program has been seen: a command line made of such
    arguments leaves the settings as they are.  After the first option,
    here [--no-modal-dialogs], such an argument is an error. *)
Theorem external_arguments_phase (cfg : value) (st : State)
  (pre rest : list string) (bare : string) :
  Forall (fun arg => String.prefix "--" arg = false) pre ->
  String.prefix "--" bare = false ->
  updateFromCommandLine env cfg pre st
  = Ok (cfg, if (0 <? List.length pre)%nat
             then set_isFirstRun false (save env cfg st) else st)
  /\ updateFromCommandLine env cfg (pre ++ "--no-modal-dialogs" :: bare :: rest) st
     = Throw (Error (UnexpectedArgument bare
                       (pre ++ "--no-modal-dialogs" :: bare :: rest))).
Proof.
  intros Hpre Hbare. split.
  - unfold updateFromCommandLine.
    rewrite <- (app_nil_r pre) at 2.
    rewrite processArguments_external by assumption.
    cbn [processArguments bind]. rewrite ?app_nil_r.
    now destruct (0 <? List.length pre)%nat.
  - unfold updateFromCommandLine.
    rewrite processArguments_external by assumption.
    cbn [processArguments].
    change (String.prefix "--" "--no-modal-dialogs") with true.
    change (index 0 "=" "--no-modal-dialogs") with (@None nat).
    cbv beta iota zeta.
    change (substring 2 (String.length "--no-modal-dialogs" - 2)
              "--no-modal-dialogs") with "no-modal-dialogs".
    change ("no-modal-dialogs" =? "no-modal-dialogs") with true.
    cbv beta iota zeta. change ("" =? "") with true. cbn [orb].
    rewrite Hbare. reflexivity.
Qed.

End ExternalArguments.

Lemma external_arguments_phase_witness :
  @updateFromCommandLine (example_host []) (example_env linux)
    (@defaultSettings (example_host [])) ["/usr/bin/rancher-desktop"]
    first_run_state
  = Ok (@defaultSettings (example_host []),
        if (0 <? List.length ["/usr/bin/rancher-desktop"])%nat
        then set_isFirstRun false
               (@save (example_host []) (example_env linux)
                  (@defaultSettings (example_host [])) first_run_state)
        else first_run_state)
  /\ @updateFromCommandLine (example_host []) (example_env linux)
       (@defaultSettings (example_host []))
       (["/usr/bin/rancher-desktop"] ++ "--no-modal-dialogs" :: "extra" :: [])
       first_run_state
     = Throw (Error (UnexpectedArgument "extra"
                       (["/usr/bin/rancher-desktop"]
                          ++ "--no-modal-dialogs" :: "extra" :: []))).
Proof.
  apply (@external_arguments_phase (example_host []) (example_env linux)
           (@defaultSettings (example_host [])) first_run_state
           ["/usr/bin/rancher-desktop"] [] "extra").
  - repeat constructor.
  - reflexivity.
Defined.

(** ** What validation returns *)

Lemma validate_object kind props s :
  validateDeploymentProfile (VObj kind props) s
  = validateEntries s props (VObj kind props).
Proof.
  cbn [validateDeploymentProfile].
  generalize (VObj kind props) as profile.
  induction props as [|[key member] rest IH]; intros profile; [reflexivity|].
  cbn [validateEntries].
  destruct (validateKey (validateDeploymentProfile member) s profile key member);
    cbn [bind]; [apply IH | reflexivity].
Qed.

Lemma has_in_Ok k s b : has_in k s = Ok b -> b = own s k.
Proof. destruct s; try discriminate. cbn [has_in]. now intros [= <-]. Qed.

Lemma delprop_Ok_object kind props k p' :
  delprop (VObj kind props) k = Ok p' -> p' = VObj kind (assoc_remove k props).
Proof.
  unfold delprop. case_if; [discriminate|]. now intros [= <-].
Qed.

Lemma typeof_object_cases v :
  typeof v = TObject -> v = VNull \/ isObject v = true.
Proof. destruct v; try discriminate; auto. Qed.

(** One key of the [forEach]: the members still to be visited are as
    they were, the one visited is good or gone. *)
Lemma validateKey_step s kind accp key member rest p'
  (recurse : value -> result value) :
  (forall sv m', recurse sv = Ok m' ->
                 isObject member = true ->
                 exists props', m' = VObj
                                       match member with
                                       | VObj k _ => k
                                       | _ => Plain
                                       end props'
                                /\ conforms m' sv) ->
  (member = VNull -> forall sv, exists e, recurse sv = Throw e) ->
  validateKey recurse s (VObj kind accp) key member = Ok p' ->
  (forall k v, lookup k accp = Some v ->
               good s k v \/ lookup k ((key, member) :: rest) = Some v) ->
  exists accp',
    p' = VObj kind accp'
    /\ (forall k v, lookup k accp' = Some v ->
                    good s k v \/ lookup k rest = Some v).
Proof.
  intros Hrec Hnull H Inv. unfold validateKey in H. inv_bind H.
  apply has_in_Ok in E. subst x.
  assert (Hdel : forall p0, delprop (VObj kind accp) key = Ok p0 ->
            exists accp', p0 = VObj kind accp'
              /\ (forall k v, lookup k accp' = Some v ->
                              good s k v \/ lookup k rest = Some v)).
  { intros p0 Hd. apply delprop_Ok_object in Hd. subst p0.
    eexists; split; [reflexivity|]. intros k v Hl.
    destruct (String.eqb_spec k key) as [->|Hne].
    - now rewrite lookup_remove_same in Hl.
    - rewrite lookup_remove_other in Hl by assumption.
      destruct (Inv k v Hl) as [Hg | Hr]; [now left|].
      right. cbn [lookup] in Hr.
      now rewrite (eqb_sym_false k key) in Hr. }
  assert (Hkeep : own s key = true ->
                  typeof member = typeof (get s key) ->
                  (isObject member = true -> isArray member = true) ->
                  forall k v, lookup k accp = Some v ->
                              good s k v \/ lookup k rest = Some v).
  { intros Hown Hty Harr k v Hl.
    destruct (Inv k v Hl) as [Hg | Hr]; [now left|].
    cbn [lookup] in Hr.
    destruct (String.eqb_spec k key) as [->|Hne]; [|now right].
    left. injection Hr as <-. split; [exact Hown | split; [exact Hty|]].
    intros Ho Ha. rewrite (Harr Ho) in Ha. discriminate. }
  destruct (own s key) eqn:Hown; [|now apply Hdel].
  destruct (jstype_eqb (typeof member) (typeof (get s key))) eqn:Hty;
    [|now apply Hdel].
  assert (Hty' : typeof member = typeof (get s key)).
  { destruct (typeof member), (typeof (get s key)); try discriminate; reflexivity. }
  destruct (jstype_eqb (typeof member) TObject) eqn:Hobj.
  - cbn [isArray] in H.
    destruct (isArray member) eqn:Harr; cbn [negb] in H.
    + apply Ok_inj in H. subst p'. exists accp. split; [reflexivity|].
      apply Hkeep; auto.
    + inv_bind H. apply Ok_inj in H. subst p'.
      assert (Hmo : isObject member = true).
      { destruct member; try discriminate Hobj; try reflexivity.
        destruct (Hnull eq_refl (get s key)) as [e He]. congruence. }
      destruct (Hrec _ _ E Hmo) as (props' & -> & Hconf).
      cbn [store isObject].
      eexists; split; [reflexivity|]. intros k v Hl.
      destruct (String.eqb_spec k key) as [->|Hne].
      * rewrite lookup_assoc_set_same in Hl. injection Hl as <-.
        left. split; [exact Hown | split; [|intros _ _; exact Hconf]].
        rewrite <- Hty'. now destruct member.
      * rewrite lookup_assoc_set_other in Hl by assumption.
        destruct (Inv k v Hl) as [Hg | Hr]; [now left|].
        right. cbn [lookup] in Hr.
        now rewrite (eqb_sym_false k key) in Hr.
  - apply Ok_inj in H. subst p'. exists accp. split; [reflexivity|].
    apply Hkeep; auto.
    intros Ho. destruct member; discriminate.
Qed.

Lemma validate_conforms_object p :
  forall s p' kind props,
    p = VObj kind props ->
    validateDeploymentProfile p s = Ok p' ->
    exists props', p' = VObj kind props' /\ conforms p' s.
Proof.
  induction p as [| |b|n|str|kind0 props0 IH] using value_ind;
    intros s p' kind props Hp H; try discriminate.
  injection Hp as -> ->.
  rewrite validate_object in H.
  assert (Hgen : forall entries accp,
             Forall (fun kv => forall s p' kind props,
                         snd kv = VObj kind props ->
                         validateDeploymentProfile (snd kv) s = Ok p' ->
                         exists props', p' = VObj kind props' /\ conforms p' s)
               entries ->
             validateEntries s entries (VObj kind accp) = Ok p' ->
             (forall k v, lookup k accp = Some v ->
                          good s k v \/ lookup k entries = Some v) ->
             exists props', p' = VObj kind props'
               /\ (forall k v, lookup k props' = Some v -> good s k v)).
  { clear. induction entries as [|[key member] rest IHe];
      intros accp HF Hv Inv.
    - cbn [validateEntries] in Hv. apply Ok_inj in Hv. subst p'.
      exists accp. split; [reflexivity|].
      intros k v Hl. destruct (Inv k v Hl) as [Hg | Hr];
        [assumption | discriminate].
    - cbn [validateEntries] in Hv. inv_bind Hv.
      inversion HF as [|? ? Hm HF']; subst. cbn [snd] in Hm.
      destruct (validateKey_step s kind accp key member rest x
                  (validateDeploymentProfile member)) as (accp' & -> & Inv');
        try assumption.
      + intros sv m' Hr Ho.
        destruct member as [| | | | |mk mp]; try discriminate.
        apply (Hm sv m' mk mp eq_refl Hr).
      + intros -> sv. exists TypeError. reflexivity.
      + now apply (IHe accp'). }
  destruct (Hgen props props IH H) as (props' & -> & Hgood); [auto|].
  exists props'. split; [reflexivity|].
  constructor. exact Hgood.
Qed.

(** [X12] When the validation of a profile object returns, what it returns
    conforms to the schema: every member is a member of the schema with
    the schema's type, and so on within the members that are objects
    other than arrays. *)
Theorem validate_conforms (p s p' : value) :
  isObject p = true ->
  validateDeploymentProfile p s = Ok p' ->
  isObject p' = true /\ conforms p' s.
Proof.
  intros Ho H. destruct p as [| | | | |kind props]; try discriminate.
  destruct (validate_conforms_object _ s p' kind props eq_refl H)
    as (props' & -> & Hc).
  split; [reflexivity | assumption].
Qed.

Lemma validate_conforms_witness :
  isObject (obj [("kubernetes", obj [("enabled", VBool false)])]) = true
  /\ conforms (obj [("kubernetes", obj [("enabled", VBool false)])])
       (@defaultSettings (example_host [])).
Proof.
  apply (validate_conforms
           (obj [("kubernetes", obj [("enabled", VBool false); ("port", VStr "x")]);
                 ("bogus", VNum 1)])
           (@defaultSettings (example_host []))).
  - reflexivity.
  - reflexivity.
Defined.

(** ** What the registry reader returns *)

Lemma registry_object kind entries regKey regPath :
  readRegistryUsingSchema (VObj kind entries) regKey regPath
  = registryEntries regKey regPath entries VUndef.
Proof.
  cbn [readRegistryUsingSchema].
  generalize VUndef as newObject.
  induction entries as [|[k sv] l IH]; intros newObject; [reflexivity|].
  cbn [registryEntries].
  destruct (if jstype_eqb (typeof sv) TObject && negb (isArray sv)
            then readRegistryUsingSchema sv regKey (regPath ++ [k])
            else getValue regKey regPath k); cbn [bind];
    [apply IH | reflexivity].
Qed.

Lemma In_lookup_source_ok kind l k v :
  source_ok (VObj kind l) = true -> In (k, v) l -> lookup k l = Some v.
Proof.
  induction l as [|[k' v'] l IH]; intros Hok Hin; [destruct Hin|].
  apply source_ok_inv in Hok. destruct Hok as (_ & Hmem & _ & Hl).
  cbn [lookup]. destruct Hin as [[= -> ->] | Hin].
  - now rewrite String.eqb_refl.
  - apply mem_false_keys in Hmem. rewrite Forall_forall in Hmem.
    specialize (Hmem _ Hin). cbn [fst] in Hmem.
    destruct (String.eqb_spec k k') as [->|_]; [contradiction|].
    now apply IH.
Qed.

Lemma source_ok_get kind l k v :
  source_ok (VObj kind l) = true -> In (k, v) l ->
  k <> "length" /\ own (VObj kind l) k = true /\ get (VObj kind l) k = v.
Proof.
  intros Hok Hin.
  pose proof (In_lookup_source_ok _ _ _ _ Hok Hin) as Hl.
  pose proof (source_ok_keys _ _ Hok) as Hk. rewrite Forall_forall in Hk.
  specialize (Hk _ Hin). cbn [fst] in Hk.
  assert (Hm : mem k l = true) by (apply mem_lookup; eauto).
  split; [exact Hk|]. split.
  - destruct kind; cbn [own]; rewrite Hm; [reflexivity | apply orb_true_r].
  - apply String.eqb_neq in Hk.
    destruct kind; cbn [get]; rewrite ?Hk, Hl; reflexivity.
Qed.

Lemma assoc_set_nonempty k v l : assoc_set k v l <> [].
Proof. destruct l as [|[k' v'] l]; cbn [assoc_set]; [|case_if]; discriminate. Qed.

Lemma assoc_set_Forall (P : string * value -> Prop) k v l :
  P (k, v) -> Forall P l -> Forall P (assoc_set k v l).
Proof.
  intros Hv. induction 1 as [|[k' v'] l Hh Ht IH]; cbn [assoc_set].
  - now repeat constructor.
  - case_if; constructor; assumption.
Qed.

(** One schema entry: the value read is assigned, as a boolean where
    the schema has one, unless it is [null] or [undefined]. *)
Lemma registryEntry_shaped (P : string -> value -> Prop) k sv rv acc :
  k <> "length" ->
  (nullish rv = false ->
   forall v, nullish v = false ->
             (typeof sv = TBoolean -> typeof v = TBoolean) ->
             (typeof sv <> TBoolean -> v = rv) -> P k v) ->
  shaped P acc -> shaped P (registryEntry k sv rv acc).
Proof.
  intros Hk HP Hacc. unfold registryEntry.
  destruct (nullish rv) eqn:Hn; cbn [negb]; [exact Hacc|].
  set (rv' := if jstype_eqb (typeof sv) TBoolean then _ else rv).
  assert (Hrv : P k rv').
  { apply (HP eq_refl); subst rv'.
    - destruct (jstype_eqb (typeof sv) TBoolean); [now destruct rv | exact Hn].
    - intros Hb. rewrite Hb. cbn [jstype_eqb]. now destruct rv.
    - intros Hb. destruct (typeof sv); try reflexivity. now destruct Hb. }
  clearbody rv'. right.
  destruct Hacc as [-> | (props & -> & _ & Hprops)].
  - unfold js_coalesce, obj. cbn [nullish].
    rewrite assignValue_object by assumption. cbn [grow assoc_set].
    eexists; split; [reflexivity|]. split; [discriminate|].
    now repeat constructor.
  - unfold js_coalesce. cbn [nullish].
    rewrite assignValue_object by assumption. cbn [grow].
    eexists; split; [reflexivity|]. split; [apply assoc_set_nonempty|].
    now apply assoc_set_Forall.
Qed.

Lemma registryEntries_shaped (P : string -> value -> Prop) regKey regPath :
  forall l acc r,
    Forall (fun kv =>
              fst kv <> "length"
              /\ forall rv,
                  (if jstype_eqb (typeof (snd kv)) TObject
                      && negb (isArray (snd kv))
                   then readRegistryUsingSchema (snd kv) regKey
                          (regPath ++ [fst kv])
                   else getValue regKey regPath (fst kv)) = Ok rv ->
                  nullish rv = false ->
                  forall v, nullish v = false ->
                    (typeof (snd kv) = TBoolean -> typeof v = TBoolean) ->
                    (typeof (snd kv) <> TBoolean -> v = rv) ->
                    P (fst kv) v) l ->
    registryEntries regKey regPath l acc = Ok r ->
    shaped P acc -> shaped P r.
Proof.
  induction l as [|[k sv] l IH]; intros acc r HF H Hacc.
  - cbn [registryEntries] in H. apply Ok_inj in H. now subst r.
  - cbn [registryEntries] in H. inv_bind H.
    inversion HF as [|? ? [Hk HP] HF']; subst. cbn [fst snd] in Hk, HP.
    apply (IH _ _ HF' H).
    apply registryEntry_shaped; [exact Hk | | exact Hacc].
    intros Hn. now apply (HP x).
Qed.

Lemma registry_read_as schema :
  forall regKey regPath r,
    isObject schema = true ->
    source_ok schema = true ->
    readRegistryUsingSchema schema regKey regPath = Ok r ->
    r = VUndef \/ read_as r schema.
Proof.
  induction schema as [| |b|n|str|kind entries IH] using value_ind;
    intros regKey regPath r Ho Hok H; try discriminate.
  rewrite registry_object in H.
  set (schema := VObj kind entries) in *.
  assert (Hsh : shaped (fun name v =>
                  own schema name = true
                  /\ nullish v = false
                  /\ (typeof (get schema name) = TBoolean -> typeof v = TBoolean)
                  /\ (isObject (get schema name) = true ->
                      isArray (get schema name) = false ->
                      read_as v (get schema name))) r).
  { refine (registryEntries_shaped _ regKey regPath entries VUndef r _ H _);
      [|now left].
    rewrite Forall_forall. intros [k sv] Hin. cbn [fst snd].
    destruct (source_ok_get _ _ _ _ Hok Hin) as (Hk & Hown & Hget).
    split; [exact Hk|]. intros rv Hread Hnr v Hn Hb Hsame.
    fold schema in Hown, Hget. rewrite Hget.
    split; [exact Hown|]. split; [exact Hn|]. split; [exact Hb|].
    intros Hso Hsa.
    assert (Hcond : jstype_eqb (typeof sv) TObject && negb (isArray sv) = true).
    { rewrite Hsa. now destruct sv. }
    rewrite Hcond in Hread.
    rewrite Hsame by (destruct sv; discriminate).
    rewrite Forall_forall in IH.
    pose proof (source_ok_members _ _ Hok) as Hm.
    rewrite Forall_forall in Hm.
    destruct (IH _ Hin regKey (regPath ++ [k]) rv Hso (Hm _ Hin) Hread)
      as [-> | Hr]; [discriminate | exact Hr]. }
  destruct Hsh as [-> | (props & -> & Hne & Hprops)]; [now left|].
  right. constructor; [exact Hne|].
  intros name v Hl. apply lookup_In in Hl.
  rewrite Forall_forall in Hprops. exact (Hprops _ Hl).
Qed.

(** [X13] What the registry reader returns for a schema object whose keys are
    distinct is [undefined] or a plain object with at least one member:
    it never returns an empty object.  Each member is named by a key of
    the schema and is neither [null] nor [undefined]; where the schema
    has a boolean the member is a boolean, and where the schema has an
    object other than an array the member is again such an object. *)
Theorem registry_members_typed (schema : value) (regKey : HKEY)
  (regPath : list string) (r : value) :
  isObject schema = true ->
  source_ok schema = true ->
  readRegistryUsingSchema schema regKey regPath = Ok r ->
  r = VUndef \/ read_as r schema.
Proof. intros Ho Hok H. exact (registry_read_as schema regKey regPath r Ho Hok H). Qed.

Lemma registry_members_typed_witness :
  obj [("kubernetes", obj [("enabled", VBool false)])] = VUndef
  \/ read_as (obj [("kubernetes", obj [("enabled", VBool false)])])
       (@defaultSettings (example_host [])).
Proof.
  apply (registry_members_typed (@defaultSettings (example_host []))
           locked_registry_key ["Locked"]).
  - reflexivity.
  - reflexivity.
  - reflexivity.
Defined.

(** ** Validation of what the registry holds *)

Lemma plain_data_members props :
  plain_data (VObj Plain props) = true
  <-> Forall (fun kv => plain_data (snd kv) = true) props.
Proof.
  induction props as [|[k v] l IH]; cbn [plain_data].
  - split; [constructor | reflexivity].
  - rewrite andb_true_iff. cbn [plain_data] in IH. rewrite IH.
    split.
    + intros [Hv Hl]. now constructor.
    + intros H. inversion H; subst. now split.
Qed.

Lemma null_free_members kind props :
  null_free (VObj kind props) = true ->
  Forall (fun kv => null_free (snd kv) = true) props.
Proof.
  induction props as [|[k v] l IH]; cbn [null_free]; intros H; constructor.
  - apply andb_true_iff in H. now destruct H.
  - apply IH. cbn [null_free]. apply andb_true_iff in H. now destruct H.
Qed.

Lemma null_free_get s k :
  isObject s = true -> null_free s = true ->
  typeof (get s k) = TObject ->
  isObject (get s k) = true /\ null_free (get s k) = true.
Proof.
  intros Ho Hn. destruct s as [| | | | |kind props]; try discriminate.
  apply null_free_members in Hn. rewrite Forall_forall in Hn.
  assert (H : forall v, match lookup k props with Some v => v | None => VUndef end = v ->
                        typeof v = TObject ->
                        isObject v = true /\ null_free v = true).
  { intros v Hv Hty. destruct (lookup k props) as [v'|] eqn:Hl.
    - subst v'. apply lookup_In in Hl. specialize (Hn _ Hl). cbn [snd] in Hn.
      split; [|exact Hn]. destruct v; try discriminate. reflexivity.
    - subst v. discriminate. }
  destruct kind as [|len]; cbn [get].
  - now apply H.
  - case_if; [discriminate|]. now apply H.
Qed.

Lemma registry_plain_data schema :
  forall regKey regPath r,
    primitive_registry regKey ->
    isObject schema = true ->
    source_ok schema = true ->
    readRegistryUsingSchema schema regKey regPath = Ok r ->
    r = VUndef \/ (isObject r = true /\ plain_data r = true).
Proof.
  induction schema as [| |b|n|str|kind entries IH] using value_ind;
    intros regKey regPath r Hprim Ho Hok H; try discriminate.
  rewrite registry_object in H.
  assert (Hsh : shaped (fun _ v => plain_data v = true) r).
  { refine (registryEntries_shaped _ regKey regPath entries VUndef r _ H _);
      [|now left].
    rewrite Forall_forall. intros [k sv] Hin. cbn [fst snd].
    destruct (source_ok_get _ _ _ _ Hok Hin) as (Hk & _ & _).
    split; [exact Hk|]. intros rv Hread Hnr v Hn Hb Hsame.
    destruct (jstype_eqb (typeof sv) TBoolean) eqn:Hbool.
    - assert (Hv : typeof v = TBoolean)
        by (apply Hb; destruct (typeof sv); try discriminate; reflexivity).
      destruct v; try discriminate. reflexivity.
    - rewrite Hsame by (intros E; rewrite E in Hbool; discriminate).
      destruct (jstype_eqb (typeof sv) TObject && negb (isArray sv)) eqn:Hcond.
      + assert (Hso : isObject sv = true).
        { destruct sv; try discriminate; reflexivity. }
        rewrite Forall_forall in IH.
        pose proof (source_ok_members _ _ Hok) as Hm.
        rewrite Forall_forall in Hm.
        destruct (IH _ Hin regKey (regPath ++ [k]) rv Hprim Hso (Hm _ Hin) Hread)
          as [-> | [_ Hr]]; [discriminate | exact Hr].
      + unfold getValue in Hread.
        destruct (regKey regPath k) as [| |v0] eqn:Hreg; try discriminate.
        * apply Ok_inj in Hread. subst rv. discriminate.
        * apply Ok_inj in Hread. subst rv.
          apply Hprim in Hreg. destruct v0; try discriminate; reflexivity. }
  destruct Hsh as [-> | (props & -> & _ & Hprops)]; [now left|].
  right. split; [reflexivity|]. now apply plain_data_members.
Qed.

Lemma validateKey_total s acc key member (recurse : value -> result value) :
  isObject s = true -> null_free s = true ->
  plain_data member = true ->
  (forall s', isObject s' = true -> null_free s' = true ->
              isObject member = true -> exists m', recurse s' = Ok m') ->
  exists acc',
    validateKey recurse s (VObj Plain acc) key member = Ok (VObj Plain acc').
Proof.
  intros Ho Hn Hp Hrec. unfold validateKey.
  destruct s as [| | | | |kind props] eqn:Es; try discriminate.
  rewrite <- Es in *. assert (Hin : has_in key s = Ok (own s key))
    by (rewrite Es; reflexivity).
  rewrite Hin. cbn [bind].
  assert (Hdel : exists acc',
             delprop (VObj Plain acc) key = Ok (VObj Plain acc'))
    by (eexists; reflexivity).
  destruct (own s key); [|exact Hdel].
  destruct (jstype_eqb (typeof member) (typeof (get s key))) eqn:Hty;
    [|exact Hdel].
  destruct (jstype_eqb (typeof member) TObject) eqn:Hobj; [|now exists acc].
  cbn [isArray].
  destruct (isArray member) eqn:Harr; cbn [negb]; [now exists acc|].
  assert (Hm : isObject member = true)
    by (destruct member; try discriminate; reflexivity).
  assert (Hs : typeof (get s key) = TObject).
  { destruct (typeof member), (typeof (get s key)); try discriminate; reflexivity. }
  destruct (null_free_get s key Ho Hn Hs) as [Hgo Hgn].
  destruct (Hrec _ Hgo Hgn Hm) as [m' ->]. cbn [bind store].
  destruct (isObject m'); eexists; reflexivity.
Qed.

Lemma validate_total p :
  forall s,
    plain_data p = true -> isObject p = true ->
    isObject s = true -> null_free s = true ->
    exists p', validateDeploymentProfile p s = Ok p'.
Proof.
  induction p as [| |b|n|str|kind props IH] using value_ind;
    intros s Hp Hpo Ho Hn; try discriminate.
  destruct kind as [|len]; [|discriminate].
  rewrite validate_object.
  apply plain_data_members in Hp.
  generalize props at 2 as acc.
  induction props as [|[key member] rest IHe]; intros acc.
  - now exists (VObj Plain acc).
  - inversion IH as [|? ? Hm IH']; subst.
    inversion Hp as [|? ? Hpm Hp']; subst. cbn [snd] in Hm, Hpm.
    cbn [validateEntries].
    destruct (validateKey_total s acc key member
                (validateDeploymentProfile member) Ho Hn Hpm) as [acc' ->].
    + intros s' Ho' Hn' Hmo. now apply Hm.
    + cbn [bind]. now apply IHe.
Qed.

Lemma read_as_isObject r s : read_as r s -> isObject r = true.
Proof. now destruct 1. Qed.

Section DeploymentProfiles.
Context {host : Host}.
Variable env : Env.

Lemma readHive_members key p :
  profile_member (defaults p) /\ profile_member (locked p) ->
  profile_member (defaults (readHive env key p))
  /\ profile_member (locked (readHive env key p)).
Proof.
  intros [Hd Hl]. unfold readHive.
  destruct (openKey env key REGISTRY_PATH_PROFILE) as [rk|]; [|now split].
  destruct (readRegistryUsingSchema defaultSettings rk ["Defaults"])
    as [d|e] eqn:Ed; [|now split].
  assert (Hd' : profile_member d).
  { destruct (registry_read_as defaultSettings _ _ _ eq_refl defaultSettings_source_ok Ed)
      as [-> | Hr]; [now left | right; now apply read_as_isObject in Hr]. }
  destruct (readRegistryUsingSchema defaultSettings rk ["Locked"])
    as [l|e] eqn:El; cbn [defaults locked]; [|now split].
  split; [exact Hd'|].
  destruct (registry_read_as defaultSettings _ _ _ eq_refl defaultSettings_source_ok El)
    as [-> | Hr]; [now left | right; now apply read_as_isObject in Hr].
Qed.

Lemma scanHives_members keys :
  forall p,
    profile_member (defaults p) /\ profile_member (locked p) ->
    profile_member (defaults (scanHives env keys p))
    /\ profile_member (locked (scanHives env keys p)).
Proof.
  induction keys as [|key rest IH]; intros p Hp; [exact Hp|].
  cbn [scanHives].
  pose proof (readHive_members key p Hp) as Hh.
  destruct (defined (defaults (readHive env key p))
            || defined (locked (readHive env key p))); [exact Hh|].
  now apply IH.
Qed.

Lemma validate_coalesce_conforms d0 d :
  profile_member d0 ->
  validateDeploymentProfile d0 defaultSettings = Ok d ->
  conforms (js_coalesce d (obj [])) defaultSettings.
Proof.
  intros [-> | Ho] H.
  - cbn [validateDeploymentProfile] in H. apply Ok_inj in H. subst d.
    unfold js_coalesce, obj. cbn [nullish]. constructor.
    intros k v Hl. discriminate.
  - destruct d0 as [| | | | |kind props]; try discriminate.
    destruct (validate_conforms_object _ _ _ kind props eq_refl H)
      as (props' & -> & Hc).
    exact Hc.
Qed.

(** [X14] Whatever [readDeploymentProfiles] returns, on any platform, the two
    profiles are objects that conform to the default settings: every
    member is a member of the defaults with the same type, and so on
    within the members that are objects other than arrays. *)
Theorem readDeploymentProfiles_conforms (fs : FileSystem) (p : Profiles) :
  readDeploymentProfiles env fs = Ok p ->
  conforms (defaults p) defaultSettings /\ conforms (locked p) defaultSettings.
Proof.
  intros H. unfold readDeploymentProfiles in H.
  inv_bind H.
  assert (Hx : profile_member (defaults x) /\ profile_member (locked x)).
  { assert (H0 : profile_member VUndef) by now left.
    destruct (platform env) eqn:Hplat.
    - apply Ok_inj in E. subst x. apply scanHives_members. now split.
    - inv_bind E. apply Ok_inj in E. subst x. now split.
    - inv_bind E. apply Ok_inj in E. subst x. now split.
    - apply Ok_inj in E. subst x. now split. }
  destruct Hx as [Hd Hl].
  inv_bind H. inv_bind H. apply Ok_inj in H. subst p. cbn [defaults locked].
  split; (eapply validate_coalesce_conforms; [|eassumption]; assumption).
Qed.

Lemma readHive_plain key p :
  (forall hive rk, openKey env hive REGISTRY_PATH_PROFILE = Some rk ->
                   primitive_registry rk) ->
  (defaults p = VUndef \/ plain_data (defaults p) = true /\ isObject (defaults p) = true)
  /\ (locked p = VUndef \/ plain_data (locked p) = true /\ isObject (locked p) = true) ->
  (defaults (readHive env key p) = VUndef
   \/ plain_data (defaults (readHive env key p)) = true
      /\ isObject (defaults (readHive env key p)) = true)
  /\ (locked (readHive env key p) = VUndef
      \/ plain_data (locked (readHive env key p)) = true
         /\ isObject (locked (readHive env key p)) = true).
Proof.
  intros Hprim [Hd Hl]. unfold readHive.
  destruct (openKey env key REGISTRY_PATH_PROFILE) as [rk|] eqn:Hk; [|now split].
  specialize (Hprim _ _ Hk).
  destruct (readRegistryUsingSchema defaultSettings rk ["Defaults"])
    as [d|e] eqn:Ed; [|now split].
  assert (Hd' : d = VUndef \/ plain_data d = true /\ isObject d = true).
  { destruct (registry_plain_data defaultSettings _ _ _ Hprim eq_refl
                defaultSettings_source_ok Ed) as [-> | [? ?]]; auto. }
  destruct (readRegistryUsingSchema defaultSettings rk ["Locked"])
    as [l|e] eqn:El; cbn [defaults locked]; [|now split].
  split; [exact Hd'|].
  destruct (registry_plain_data defaultSettings _ _ _ Hprim eq_refl
              defaultSettings_source_ok El) as [-> | [? ?]]; auto.
Qed.

Lemma defaultSettings_null_free : null_free defaultSettings = true.
Proof. reflexivity. Qed.

Lemma validate_plain_total d :
  d = VUndef \/ plain_data d = true /\ isObject d = true ->
  exists d', validateDeploymentProfile d defaultSettings = Ok d'.
Proof.
  intros [-> | [Hp Ho]]; [now exists VUndef|].
  now apply validate_total; [| | | apply defaultSettings_null_free].
Qed.

(** [X15] On Windows, reading the deployment profiles never raises an error
    when the values the registry holds are numbers and strings: what goes
    wrong while reading is caught, and the validation of what was read
    cannot fail. *)
Theorem win32_profiles_never_throw (fs : FileSystem) :
  platform env = win32 ->
  (forall hive rk, openKey env hive REGISTRY_PATH_PROFILE = Some rk ->
                   primitive_registry rk) ->
  exists p, readDeploymentProfiles env fs = Ok p.
Proof.
  intros Hw Hprim. unfold readDeploymentProfiles. rewrite Hw. cbn [bind].
  set (p0 := {| defaults := VUndef; locked := VUndef |}).
  assert (Hp : forall keys p,
             (defaults p = VUndef
              \/ plain_data (defaults p) = true /\ isObject (defaults p) = true)
             /\ (locked p = VUndef
                 \/ plain_data (locked p) = true /\ isObject (locked p) = true) ->
             (defaults (scanHives env keys p) = VUndef
              \/ plain_data (defaults (scanHives env keys p)) = true
                 /\ isObject (defaults (scanHives env keys p)) = true)
             /\ (locked (scanHives env keys p) = VUndef
                 \/ plain_data (locked (scanHives env keys p)) = true
                    /\ isObject (locked (scanHives env keys p)) = true)).
  { induction keys as [|key rest IH]; intros p Hp; [exact Hp|].
    cbn [scanHives].
    pose proof (readHive_plain key p Hprim Hp) as Hh.
    destruct (defined (defaults (readHive env key p))
              || defined (locked (readHive env key p))); [exact Hh|].
    now apply IH. }
  destruct (Hp [HKLM; HKCU] p0) as [Hd Hl]; [split; now left|].
  destruct (validate_plain_total _ Hd) as [d' ->].
  destruct (validate_plain_total _ Hl) as [l' ->].
  cbn [bind]. eexists; reflexivity.
Qed.

(** [X16] On Windows the machine hive takes precedence: when it yields a
    profile, the result does not depend on the user hive (nor on any
    file). *)
Theorem machine_hive_takes_precedence (env' : Env) (fs fs' : FileSystem) :
  platform env = win32 ->
  platform env' = win32 ->
  openKey env HKLM REGISTRY_PATH_PROFILE = openKey env' HKLM REGISTRY_PATH_PROFILE ->
  (let p := readHive env HKLM {| defaults := VUndef; locked := VUndef |} in
   defined (defaults p) || defined (locked p) = true) ->
  readDeploymentProfiles env fs = readDeploymentProfiles env' fs'.
Proof.
  intros Hw Hw' Hkey Hdef. unfold readDeploymentProfiles.
  rewrite Hw, Hw'. cbn [bind scanHives].
  assert (Hsame : forall p, readHive env HKLM p = readHive env' HKLM p).
  { intros p. unfold readHive. now rewrite Hkey. }
  rewrite <- Hsame. cbv zeta in Hdef. rewrite Hdef. reflexivity.
Qed.

End DeploymentProfiles.

Lemma readDeploymentProfiles_conforms_witness :
  conforms (obj []) (@defaultSettings profile_host)
  /\ conforms locked_profile (@defaultSettings profile_host).
Proof.
  apply (@readDeploymentProfiles_conforms profile_host
           (registry_env locked_registry_key) no_files
           {| defaults := obj []; locked := locked_profile |}).
  reflexivity.
Defined.

Lemma locked_registry_key_primitive : primitive_registry locked_registry_key.
Proof.
  intros regPath name v. unfold locked_registry_key.
  destruct (list_eq_dec string_dec regPath ["Locked"; "kubernetes"]);
    [destruct (name =? "enabled")|]; try discriminate.
  now intros [= <-].
Qed.

Lemma win32_profiles_never_throw_witness :
  exists p,
    @readDeploymentProfiles profile_host (registry_env locked_registry_key)
      no_files = Ok p.
Proof.
  apply (@win32_profiles_never_throw profile_host
           (registry_env locked_registry_key) no_files).
  - reflexivity.
  - intros hive rk. destruct hive; cbn [registry_env openKey]; [|discriminate].
    intros [= <-]. exact locked_registry_key_primitive.
Defined.

Lemma machine_hive_takes_precedence_witness :
  @readDeploymentProfiles profile_host (registry_env locked_registry_key) no_files
  = @readDeploymentProfiles profile_host (two_hive_env locked_registry_key user_registry_key)
      profile_files.
Proof.
  apply (@machine_hive_takes_precedence profile_host
           (registry_env locked_registry_key)
           (two_hive_env locked_registry_key user_registry_key)
           no_files profile_files).
  - reflexivity.
  - reflexivity.
  - reflexivity.
  - reflexivity.
Defined.

(** ** The Moby client *)

Lemma addContextOption_wsl b args :
  (b =? "wsl") = true -> Moby.runClient_args b args = args.
Proof.
  intros Hb. unfold Moby.runClient_args, Moby.addContextOption. rewrite Hb.
  now repeat case_if.
Qed.

Lemma addContextOption_present b args :
  Moby.includes args "--context" = true -> Moby.runClient_args b args = args.
Proof.
  intros Hi. unfold Moby.runClient_args, Moby.addContextOption. rewrite Hi.
  now repeat case_if.
Qed.

(** [X17] A caller that has added the context option itself, as [composeDown]
    and [composePort] do, and [composeUp], which appends further
    arguments before it calls [runClient], does not get the option a
    second time: the executable is started with exactly the arguments
    the caller made. *)
Theorem runClient_adds_context_once (backend : string)
  (args more : list string) :
  Moby.runClient_args backend (Moby.addContextOption backend args ++ more)
  = (Moby.addContextOption backend args ++ more)%list.
Proof.
  destruct (backend =? "wsl") eqn:Hb; [now apply addContextOption_wsl|].
  apply addContextOption_present.
  unfold Moby.includes. rewrite existsb_app. apply orb_true_iff. left.
  fold (Moby.includes (Moby.addContextOption backend args) "--context").
  unfold Moby.addContextOption. rewrite Hb.
  destruct (Moby.includes args "--context") eqn:Hi; [exact Hi | reflexivity].
Qed.

Lemma repeat_snoc {A} (x : A) n : repeat x n ++ [x] = x :: repeat x n.
Proof. induction n as [|n IH]; [reflexivity|]. cbn [repeat app]. now rewrite IH. Qed.

Lemma waitLoop_returns outcomes :
  forall successCount rest,
    (successCount <= 10)%nat ->
    Moby.waitLoop outcomes successCount = Some rest ->
    exists pre,
      (repeat true successCount ++ outcomes = pre ++ repeat true 10 ++ rest)%list.
Proof.
  induction outcomes as [|ok rest0 IH]; intros c rest Hc H; cbn [Moby.waitLoop] in H.
  - destruct (Nat.ltb_spec c 10) as [Hlt|Hge]; [discriminate|].
    injection H as <-. exists []. assert (c = 10%nat) as -> by lia. reflexivity.
  - destruct (Nat.ltb_spec c 10) as [Hlt|Hge].
    + destruct ok.
      * destruct (IH (S c) rest ltac:(lia) H) as [pre Hpre].
        exists pre. rewrite <- Hpre.
        change (true :: rest0) with ([true] ++ rest0)%list.
        now rewrite app_assoc, repeat_snoc.
      * destruct (IH 0%nat rest ltac:(lia) H) as [pre Hpre].
        cbn [repeat app] in Hpre.
        exists (repeat true c ++ false :: pre)%list.
        rewrite <- app_assoc. cbn [app]. now rewrite Hpre.
    + injection H as <-. exists []. assert (c = 10%nat) as -> by lia. reflexivity.
Qed.

(** [X18] When [waitForReady] returns, the ten calls before it returned all
    succeeded. *)
Theorem waitForReady_returns_after_ten (outcomes rest : list bool) :
  Moby.waitForReady outcomes = Some rest ->
  exists pre, (outcomes = pre ++ repeat true 10 ++ rest)%list.
Proof.
  intros H. apply (waitLoop_returns outcomes 0%nat rest) in H; [|lia].
  exact H.
Qed.

Lemma waitForReady_returns_after_ten_witness :
  exists pre,
    ([true; true; false] ++ repeat true 10 ++ [false; true]
     = pre ++ repeat true 10 ++ [false; true])%list.
Proof.
  apply (waitForReady_returns_after_ten
           ([true; true; false] ++ repeat true 10 ++ [false; true])
           [false; true]).
  reflexivity.
Defined.

Lemma waitLoop_successes n :
  forall successCount rest,
    (10 <= successCount + n)%nat ->
    exists rest', Moby.waitLoop (repeat true n ++ rest) successCount = Some rest'.
Proof.
  induction n as [|n IH]; intros c rest Hc; cbn [repeat app].
  - destruct rest as [|ok rest0]; cbn [Moby.waitLoop];
      destruct (Nat.ltb_spec c 10) as [Hlt|Hge]; try lia; eexists; reflexivity.
  - cbn [Moby.waitLoop]. destruct (Nat.ltb_spec c 10) as [Hlt|Hge].
    + apply IH. lia.
    + eexists; reflexivity.
Qed.

(** [X19] Ten successes in a row are enough, whatever came before them:
    [waitForReady] returns. *)
Theorem waitForReady_ten_successes_suffice (pre rest : list bool) :
  exists rest',
    Moby.waitForReady (pre ++ repeat true 10 ++ rest) = Some rest'.
Proof.
  unfold Moby.waitForReady.
  enough (H : forall c, exists rest',
               Moby.waitLoop (pre ++ repeat true 10 ++ rest) c = Some rest')
    by apply H.
  induction pre as [|ok pre IH]; intros c.
  - cbn [app]. apply waitLoop_successes. lia.
  - cbn [app Moby.waitLoop]. destruct (c <? 10)%nat; [apply IH|].
    eexists; reflexivity.
Qed.

(** ** The profile checks of the end-to-end tests *)

Lemma existsb_filter {A} (f : A -> bool) l :
  existsb f l = true <-> filter f l <> [].
Proof.
  induction l as [|x l IH]; cbn [existsb filter].
  - split; [discriminate | intros H; now destruct H].
  - destruct (f x); cbn [orb]; [split; [discriminate | reflexivity]|exact IH].
Qed.

(** [X20] On Windows [verifyNoSystemProfile] never reports a machine without
    system profile: when the registry could not be cleaned it returns
    the one message of that failure, and otherwise it goes on to the
    profile paths of a platform that has none and throws. *)
Theorem verifyNoSystemProfile_win32 (env : Env) (registry : option string)
  (fileExists : string -> bool) :
  platform env = win32 ->
  ProfileUtils.verifyNoSystemProfile env registry fileExists
  = match registry with
    | Some message => inl [ProfileUtils.NeedRemoveHive message]
    | None => inr (ProfileUtils.UnexpectedPlatform win32)
    end
  /\ ProfileUtils.verifyNoSystemProfile env registry fileExists <> inl [].
Proof.
  intros Hw. unfold ProfileUtils.verifyNoSystemProfile,
    ProfileUtils.getDeploymentPaths. rewrite Hw.
  cbn [ProfileUtils.is_win32 ProfileUtils.getDeploymentBaseNames].
  destruct registry; split; try reflexivity; discriminate.
Qed.

Lemma verifyNoSystemProfile_win32_witness :
  ProfileUtils.verifyNoSystemProfile (registry_env locked_registry_key) None
    (fun _ => false)
  = inr (ProfileUtils.UnexpectedPlatform win32)
  /\ ProfileUtils.verifyNoSystemProfile (registry_env locked_registry_key) None
       (fun _ => false) <> inl [].
Proof.
  apply (verifyNoSystemProfile_win32 (registry_env locked_registry_key) None
           (fun _ => false)).
  reflexivity.
Defined.

(** [X21] On Linux and macOS the two checks of the system profile never throw
    and are complementary: over the same files, exactly one of them has
    nothing to report. *)
Theorem system_profile_checks_complementary (env : Env)
  (hasRegistrySubtree : string -> bool) (registry : option string)
  (fileExists : string -> bool) :
  platform env = linux \/ platform env = darwin ->
  exists present absent,
    ProfileUtils.verifySystemProfile env hasRegistrySubtree fileExists
    = inl present
    /\ ProfileUtils.verifyNoSystemProfile env registry fileExists = inl absent
    /\ (present = [] <-> absent <> []).
Proof.
  intros Hp. unfold ProfileUtils.verifySystemProfile,
    ProfileUtils.verifyNoSystemProfile.
  destruct (ProfileUtils.getDeploymentPaths env (platform env)
              (paths_deploymentProfileSystem env)) as [paths|e] eqn:Hpaths.
  - assert (Hw : ProfileUtils.is_win32 (platform env) = false)
      by (destruct Hp as [-> | ->]; reflexivity).
    rewrite Hw.
    destruct (existsb fileExists paths) eqn:Hex; do 2 eexists;
      (split; [reflexivity|]); (split; [reflexivity|]).
    + apply existsb_filter in Hex.
      split; [intros _ | reflexivity].
      destruct (filter fileExists paths); [now destruct Hex | discriminate].
    + split; [discriminate|]. intros Hne. exfalso.
      assert (Hf : filter fileExists paths <> [])
        by (intros E; rewrite E in Hne; now apply Hne).
      apply existsb_filter in Hf. congruence.
  - exfalso. unfold ProfileUtils.getDeploymentPaths in Hpaths.
    destruct Hp as [Hp | Hp]; rewrite Hp in Hpaths; discriminate.
Qed.

Lemma system_profile_checks_complementary_witness :
  exists present absent,
    ProfileUtils.verifySystemProfile (example_env linux) (fun _ => false)
      (fun p => p =? "/etc/rancher-desktop/locked.json")
    = inl present
    /\ ProfileUtils.verifyNoSystemProfile (example_env linux) None
         (fun p => p =? "/etc/rancher-desktop/locked.json") = inl absent
    /\ (present = [] <-> absent <> []).
Proof.
  apply (system_profile_checks_complementary (example_env linux)
           (fun _ => false) None
           (fun p => p =? "/etc/rancher-desktop/locked.json")).
  left. reflexivity.
Defined.
